(** * Resolution of Gutenberg download locations: [gutenberg2zim/urls.py]

    A shallow embedding of the URL builder, the three candidate generators,
    the resolver ([sort_by_mime_type], [build_urls]) and the ingestion of the
    rsync listing ([setup_urls]), together with the properties the
    specification states about them.

    Python values are modelled as follows.
    - [str]: [string]; a character is an 8-bit code point.
    - [int]: book ids are [N], indices and [str.find] results are [Z].
    - exceptions: the error monad [Exc].
    - [pathlib.Path]: the record [PurePath] (root and parsed parts).
    - [dict] keyed by MIME type: [gmap string _].
    - [list(set(l))]: an enumeration [list_set l] of the distinct elements of
      [l], in an order that the language leaves open ([SetOrder]).

    The module [Utils] embeds the helpers of [gutenberg/utils.py]:
    [exec_cmd], [path_for_cmd], [get_langs_with_count], [get_lang_groups],
    [read_file], [md5sum] and [is_bad_cover].
    - the dictionary of the language counts: [gmap string N], its [items()]
      in an order that is left open ([DictOrder]).
    - [sorted]: a stable insertion sort.
    - exceptions of the library calls: the error monad [Utils.Res].
    - the file system, the codecs, [chardet] and [language_name]: variables
      of the sections [Files] and [Languages]. *)

From Stdlib Require Import String Ascii ZArith NArith Lia.
From Stdlib Require Import DecimalString DecimalN.
From stdpp Require Import base list gmap strings sorting.

Local Open Scope Z_scope.

(** ** Exceptions *)

Inductive exn : Type :=
  | AttributeError
  | IndexError
  | TypeError
  | KeyError
  | ValueError (msg : string)
  | UnboundLocalError (var : string).

Inductive Exc (A : Type) : Type :=
  | Ok (a : A)
  | Raise (e : exn).
Arguments Ok {A} a.
Arguments Raise {A} e.

#[global] Instance Exc_ret : MRet Exc := λ A a, Ok a.
#[global] Instance Exc_bind : MBind Exc := λ A B f m,
  match m with
  | Ok a => f a
  | Raise e => Raise e
  end.

#[global] Instance Exc_fmap : FMap Exc := λ A B f m,
  match m with
  | Ok a => Ok (f a)
  | Raise e => Raise e
  end.

Definition raises {A} (m : Exc A) : Prop := ∃ e, m = Raise e.

(** ** Strings *)

Module Str.

(** [s.startswith(p)] *)
Fixpoint startswith (s p : string) {struct p} : bool :=
  match p with
  | EmptyString => true
  | String a p' =>
      match s with
      | String b s' => Ascii.eqb a b && startswith s' p'
      | EmptyString => false
      end
  end.

(** [sub in s] *)
Fixpoint contains (s sub : string) : bool :=
  startswith s sub ||
  match s with
  | EmptyString => false
  | String _ s' => contains s' sub
  end.

Fixpoint find_from (s sub : string) (i : Z) : Z :=
  if startswith s sub then i
  else match s with
       | EmptyString => -1
       | String _ s' => find_from s' sub (i + 1)
       end.

(** [s.find(sub)]: the lowest index where [sub] occurs, or [-1]. *)
Definition find (s sub : string) : Z := find_from s sub 0.

(** [s[n:]] for [0 <= n] *)
Fixpoint slice_from (n : nat) (s : string) : string :=
  match n, s with
  | O, _ => s
  | S n', String _ s' => slice_from n' s'
  | S _, EmptyString => EmptyString
  end.

(** [s[:-1]] *)
Fixpoint drop_last (s : string) : string :=
  match s with
  | EmptyString => EmptyString
  | String c EmptyString => EmptyString
  | String c s' => String c (drop_last s')
  end.

(** [list(s)]: the characters of [s] as one-character strings. *)
Fixpoint chars (s : string) : list string :=
  match s with
  | EmptyString => []
  | String c s' => String c EmptyString :: chars s'
  end.

(** [str.isspace] on the code points below 256. *)
Definition isspace (c : ascii) : bool :=
  let n := N_of_ascii c in
  ((9 <=? n) && (n <=? 13) || (28 <=? n) && (n <=? 32) ||
   (n =? 133) || (n =? 160))%N.

Fixpoint lstrip (s : string) : string :=
  match s with
  | EmptyString => EmptyString
  | String c s' => if isspace c then lstrip s' else s
  end.

Fixpoint rstrip (s : string) : string :=
  match s with
  | EmptyString => EmptyString
  | String c s' =>
      match rstrip s' with
      | EmptyString => if isspace c then EmptyString else String c EmptyString
      | r => String c r
      end
  end.

(** [s.strip()] *)
Definition strip (s : string) : string := rstrip (lstrip s).

(** [s.split(sep)] for a one-character separator. *)
Fixpoint split (sep : ascii) (s : string) : list string :=
  match s with
  | EmptyString => [EmptyString]
  | String c s' =>
      if Ascii.eqb c sep then EmptyString :: split sep s'
      else match split sep s' with
           | [] => [String c EmptyString]
           | w :: ws => String c w :: ws
           end
  end.

(** [sep.join(l)] *)
Fixpoint join (sep : string) (l : list string) : string :=
  match l with
  | [] => ""
  | [x] => x
  | x :: l' => x +:+ sep +:+ join sep l'
  end.

(** [s.lstrip(c)] for a single character [c]. *)
Fixpoint lstrip_char (c : ascii) (s : string) : string :=
  match s with
  | EmptyString => EmptyString
  | String a s' => if Ascii.eqb a c then lstrip_char c s' else s
  end.

End Str.

(** ** Integers and their decimal form *)

(** [str(n)] for a non-negative [int]. *)
Definition str (n : N) : string := NilEmpty.string_of_uint (N.to_uint n).

(** [int(s)] for the strings the builder is handed by the generators: the
    decimal form of a book id, a non-empty run of ASCII digits, on which it
    is exact ([int_str]). Python's [int] also takes blanks around the
    digits, a sign and underscores between digits; these are not modelled
    and raise [ValueError] here, so the statements about [build] speak of
    identifiers of the form [str n] only. *)
Definition int (s : string) : Exc N :=
  match s with
  | EmptyString => Raise (ValueError "invalid literal for int()")
  | _ => match NilEmpty.uint_of_string s with
         | Some d => Ok (N.of_uint d)
         | None => Raise (ValueError "invalid literal for int()")
         end
  end.

(** The format [f"{i:0=2d}"]: at least two digits, padded with zeros. *)
Definition fmt_02d (i : N) : string :=
  if (i <? 10)%N then "0" +:+ str i else str i.

(** ** [pathlib.PurePosixPath] *)

Record PurePath : Type := mkPath {
  root : string;        (* "", "/" or "//" *)
  parts : list string   (* the components after the root *)
}.

#[global] Instance PurePath_eq_dec : EqDecision PurePath.
Proof. solve_decision. Defined.

Module Pathlib.

Definition sep : ascii := "/"%char.

(** [_PosixFlavour.splitroot] *)
Definition splitroot (part : string) : string * string :=
  if Str.startswith part "/" then
    let stripped := Str.lstrip_char sep part in
    if (String.length part - String.length stripped =? 2)%nat
    then ("//", stripped) else ("/", stripped)
  else ("", part).

Definition keep (x : string) : bool :=
  negb (String.eqb x "") && negb (String.eqb x ".").

(** [parse_parts] on a single string: the root, and the components of the
    rest that are neither empty nor ["."]. *)
Definition parse (part : string) : PurePath :=
  let '(rt, rel) := splitroot part in
  mkPath rt (List.filter keep (Str.split sep rel)).

(** [join_parsed_parts]: an anchored right operand replaces the left one. *)
Definition joinpath (p q : PurePath) : PurePath :=
  if String.eqb (root q) "" then mkPath (root p) (parts p ++ parts q)
  else q.

Definition empty : PurePath := mkPath "" [].

(** [str(p)] *)
Definition to_str (p : PurePath) : string :=
  match root p, parts p with
  | EmptyString, [] => "."
  | rt, ps => rt +:+ Str.join "/" ps
  end.

End Pathlib.

(** An argument of [Path(...)] and of [/]: a [str] or a path. [build] returns
    either. *)
Inductive pathlike : Type :=
  | PStr (s : string)
  | PPath (p : PurePath).

Definition to_path (a : pathlike) : PurePath :=
  match a with
  | PStr s => Pathlib.parse s
  | PPath p => p
  end.

(** The constructor [Path] applied to its arguments. *)
Definition Path (args : list pathlike) : PurePath :=
  fold_left (λ acc a, Pathlib.joinpath acc (to_path a)) args Pathlib.empty.

(** [p / a] *)
Definition truediv (p : PurePath) (a : pathlike) : PurePath :=
  Pathlib.joinpath p (to_path a).

Notation "p </> s" := (truediv p (PStr s)) (at level 40, left associativity).

(** [bool(x)]: a path object is always true, a [str] is true unless empty. *)
Definition truthy (a : pathlike) : bool :=
  match a with
  | PStr s => negb (String.eqb s "")
  | PPath _ => true
  end.

(** ** [UrlBuilder] *)

Module UrlBuilder.

Definition SERVER_NAME : string := "aleph_pglaf_org".
Definition RSYNC : string := "rsync://aleph.pglaf.org/gutenberg/".
Definition BASE_ONE : string := "http://aleph.pglaf.org/".
Definition BASE_TWO : string := "http://aleph.pglaf.org/cache/epub/".
Definition BASE_THREE : string := "http://aleph.pglaf.org/etext".

(** The attribute [b_id] does not exist until [with_id] is called. *)
Record t : Type := mk { base : string; b_id : option string }.

Definition init : t := mk BASE_ONE None.
Definition with_base (u : t) (b : string) : t := mk b (b_id u).
Definition with_id (u : t) (i : string) : t := mk (base u) (Some i).

Definition get_b_id (u : t) : Exc string :=
  match b_id u with
  | Some i => Ok i
  | None => Raise AttributeError
  end.

(** The directory of a book below [BASE_ONE] (the local [base_url]). *)
Definition base_url (b_id : string) (n : N) : PurePath :=
  if (10 <? n)%N
  then Path (PStr <$> Str.chars (Str.drop_last b_id)) </> b_id
  else Path [PStr "0"] </> b_id.

Definition build (u : t) : Exc pathlike :=
  if String.eqb (base u) BASE_ONE then
    b ← get_b_id u;
    n ← int b;
    Ok (PPath (truediv (Path [PStr (base u)]) (PPath (base_url b n))))
  else if String.eqb (base u) BASE_TWO then
    b ← get_b_id u;
    Ok (PPath (Path [PStr (base u)] </> b))
  else if String.eqb (base u) BASE_THREE then
    Ok (PStr (base u))
  else Raise (UnboundLocalError "url").

End UrlBuilder.

(** ** Known files of a book *)

(** The dictionaries [{"name": ..., "id": ...}] that [sort_by_mime_type]
    builds, one per known file of a book. *)
Module File.

Record t : Type := mk { name : string; id : N }.

Definition keys : list string := ["name"; "id"].

End File.

#[global] Instance File_eq_dec : EqDecision File.t.
Proof. solve_decision. Defined.

(** [x in s]: a substring test when [s] is a [str], a test on the keys when
    [s] is a dictionary. *)
Class PyIn (A : Type) : Type := py_in : string → A → bool.

#[global] Instance str_PyIn : PyIn string := λ sub s, Str.contains s sub.
#[global] Instance File_PyIn : PyIn File.t :=
  λ k _, bool_decide (k ∈ File.keys).

(** [l[i]] with Python's negative indices. *)
Definition getitem {A} (l : list A) (i : Z) : Exc A :=
  let n := Z.of_nat (length l) in
  let j := if i <? 0 then i + n else i in
  if (0 <=? j) && (j <? n) then
    match l !! Z.to_nat j with
    | Some x => Ok x
    | None => Raise IndexError
    end
  else Raise IndexError.

(** [range(a, b)] *)
Definition range (a b : N) : list N :=
  N.of_nat <$> seq (N.to_nat a) (N.to_nat (b - a)).

(** ** The order of [list(set(urls))]

    A set has no order of its own: converting it to a list enumerates its
    elements once each, in an order fixed by the hashes of the elements
    (which Python salts per interpreter process). *)
Class SetOrder : Type := {
  list_set : list PurePath → list PurePath;
  list_set_NoDup l : NoDup (list_set l);
  list_set_elem l x : x ∈ list_set l ↔ x ∈ l
}.

(** Two enumerations: by first insertion, and its reverse. *)
Definition insertion_order : SetOrder.
Proof.
  refine {| list_set := remove_dups |}.
  - intros l. apply NoDup_remove_dups.
  - intros l x. apply elem_of_remove_dups.
Defined.

Definition reverse_order : SetOrder.
Proof.
  refine {| list_set := λ l, reverse (remove_dups l) |}.
  - intros l. rewrite reverse_Permutation. apply NoDup_remove_dups.
  - intros l x. rewrite elem_of_reverse. apply elem_of_remove_dups.
Defined.

(** ** Candidate generators *)

Fixpoint index_of_substring_from {A} `{PyIn A}
    (lst : list A) (substrings : list string) (i : Z) : Z :=
  match lst with
  | [] => -1
  | s :: rest =>
      if existsb (λ substring, py_in substring s) substrings then i
      else index_of_substring_from rest substrings (i + 1)
  end.

Definition index_of_substring {A} `{PyIn A}
    (lst : list A) (substrings : list string) : Z :=
  index_of_substring_from lst substrings 0.

Definition build_epub (files : list File.t) : Exc (list PurePath) :=
  f0 ← getitem files 0;
  let b_id := str (File.id f0) in
  let u := UrlBuilder.with_base (UrlBuilder.with_id UrlBuilder.init b_id)
             UrlBuilder.BASE_TWO in
  b ← UrlBuilder.build u;
  if negb (truthy b) then Ok []
  else
    let name := "pg" +:+ b_id in
    let url := Path [b] </> (name +:+ ".epub") in
    let url_images := Path [b] </> (name +:+ "-images.epub") in
    let url_noimages := Path [b] </> (name +:+ "-noimages.epub") in
    Ok [url; url_images; url_noimages].

Section Generators.

Context `{SetOrder}.

Definition build_pdf (files : list File.t) : Exc (list PurePath) :=
  f0 ← getitem files 0;
  let b_id := str (File.id f0) in
  let u := UrlBuilder.with_id
             (UrlBuilder.with_base UrlBuilder.init UrlBuilder.BASE_TWO) b_id in
  let u1 := UrlBuilder.with_id
              (UrlBuilder.with_base UrlBuilder.init UrlBuilder.BASE_ONE) b_id in
  b ← UrlBuilder.build u;
  if negb (truthy b) then Ok []
  else
    let urls :=
      (λ i, Path [b] </> File.name i) <$>
      List.filter (λ i, negb (py_in "images" (File.name i))) files in
    b1 ← UrlBuilder.build u1;
    let url_dash1 := Path [b1] </> (b_id +:+ "-pdf.pdf") in
    let url_dash := Path [b] </> (b_id +:+ "-pdf.pdf") in
    let url_normal := Path [b] </> (b_id +:+ ".pdf") in
    let url_pg := Path [b] </> ("pg" +:+ b_id +:+ ".pdf") in
    Ok (list_set (urls ++ [url_dash; url_normal; url_pg; url_dash1])).

Definition etext_nums : list N := range 90 100 ++ range 0 6.

Definition build_html (files : list File.t) : Exc (list PurePath) :=
  f0 ← getitem files 0;
  let b_id := str (File.id f0) in
  let file_names := File.name <$> files in
  let u := UrlBuilder.with_id UrlBuilder.init b_id in
  b ← UrlBuilder.build u;
  if negb (truthy b) then Ok []
  else
    let urls :=
      if bool_decide ("-h.html" ∉ file_names) &&
         bool_decide ("-h.zip" ∈ file_names)
      then (λ i, Path [b] </> File.name i) <$> files
      else [] in
    let url_zip := Path [b] </> (b_id +:+ "-h.zip") in
    let url_html := Path [b] </> (b_id +:+ "-h.html") in
    let url_htm := Path [b] </> (b_id +:+ "-h.htm") in
    let u2 := UrlBuilder.with_base u UrlBuilder.BASE_TWO in
    let name := "pg" +:+ b_id in
    b2 ← UrlBuilder.build u2;
    let html_utf8 := Path [b2] </> (name +:+ ".html.utf8") in
    let u3 := UrlBuilder.with_base u2 UrlBuilder.BASE_THREE in
    let file_index := index_of_substring files ["html"; "htm"] in
    fl ← getitem files file_index;
    let file_name := File.name fl in
    let etext_names := fmt_02d <$> etext_nums in
    etext_urls ← mapM (λ i, b3 ← UrlBuilder.build u3;
                            Ok (Path [b3; PStr i; PStr file_name]))
                      etext_names;
    Ok (list_set (urls ++ [url_zip; url_htm; url_html; html_utf8] ++ etext_urls)).

End Generators.

(** ** The catalogue and the listing index

    [BookFormat] and [Url] are tables of the database. A table is the list
    of its rows, in insertion order. *)

Module BookFormat.

Record t : Type := mk { book : N; mime : string; pattern : string }.

End BookFormat.

Module Url.

(** [Url.get_or_none(url=k)]: the first row whose [url] is [k], if any. *)
Definition get_or_none (tbl : list string) (url : string) : option string :=
  List.find (String.eqb url) tbl.

(** [Url.create(url=k)] *)
Definition create (tbl : list string) (url : string) : list string :=
  tbl ++ [url].

(** [Url.delete().execute()] *)
Definition delete (tbl : list string) : list string := [].

End Url.

(** [FORMAT_MATRIX] and [BAD_BOOKS_FORMATS] of [utils.py]. *)
Definition FORMAT_MATRIX : list (string * string) :=
  [("epub", "application/epub+zip");
   ("pdf", "application/pdf");
   ("html", "text/html")].


(** ** The resolver *)

(** A value of the dictionary [files]: the known files of a MIME type as
    [sort_by_mime_type] leaves them, or the URLs [build_urls] stores in
    their place. *)
Inductive entry : Type :=
  | Known (fs : list File.t)
  | Urls (us : list PurePath).

(** The dictionaries [{"mime": ..., "id": ...}] of [get_urls]. *)
Record fmt_info : Type := mk_info { info_mime : string; info_id : N }.

(** [sort_by_mime_type]: [files] is a list of dictionaries, each given by
    its items; [mime] is the [defaultdict(list)]. *)
Definition sort_by_mime_type (files : list (list (string * fmt_info)))
    : gmap string (list File.t) :=
  fold_left
    (λ mime f,
       fold_left
         (λ mime kv,
            let '(k, v) := kv in
            <[info_mime v := default [] (mime !! info_mime v)
                             ++ [File.mk k (info_id v)]]> mime)
         f mime)
    files ∅.

(** A generator applied to a value of [files]. Every generator starts with
    [files[0]["id"]]: on a list of paths this raises [IndexError] when the
    list is empty and [TypeError] otherwise. *)
Definition generate (g : list File.t → Exc (list PurePath)) (e : entry)
    : Exc (list PurePath) :=
  match e with
  | Known fs => g fs
  | Urls [] => Raise IndexError
  | Urls (_ :: _) => Raise TypeError
  end.

Section Resolver.

Context `{SetOrder}.

(** [url_path u] is [urlparse.urlparse(u).path] for a candidate [u]. The
    resolver is stated over every behaviour of that call; [urlparse_path]
    below is the behaviour of the library on the path objects it is given. *)
Variable url_path : PurePath → Exc string.

(** The table [Url]. *)
Variable db : list string.

Definition mapping : list (string * (list File.t → Exc (list PurePath))) :=
  [("application/epub+zip", build_epub);
   ("application/pdf", build_pdf);
   ("text/html", build_html)].

(** The condition of the comprehension [filtre]. *)
Definition in_db (u : PurePath) : Exc bool :=
  p ← url_path u;
  Ok (bool_decide (is_Some (Url.get_or_none db (Str.slice_from 1 p)))).

(** [[u for u in possible_url if ...]] *)
Fixpoint filtre (possible_url : list PurePath) : Exc (list PurePath) :=
  match possible_url with
  | [] => Ok []
  | u :: rest =>
      found ← in_db u;
      kept ← filtre rest;
      Ok (if (found : bool) then u :: kept else kept)
  end.

(** The loop [for i in mapping] of [build_urls]. *)
Fixpoint build_urls_loop
    (m : list (string * (list File.t → Exc (list PurePath))))
    (files : gmap string entry) : Exc (gmap string entry) :=
  match m with
  | [] => Ok files
  | (i, g) :: rest =>
      match files !! i with
      | Some e =>
          possible_url ← generate g e;
          kept ← filtre possible_url;
          build_urls_loop rest (<[i := Urls kept]> files)
      | None => build_urls_loop rest files
      end
  end.

Definition build_urls (files : gmap string entry) : Exc (gmap string entry) :=
  build_urls_loop mapping files.

(** [x.pattern.format(id=book.id)] *)
Variable pattern_format : string → N → Exc string.

(** The local function [f] of [get_urls]. *)
Definition strip_encoding (x : BookFormat.t) : Exc string :=
  s ← getitem (Str.split ";" (BookFormat.mime x)) 0;
  Ok (Str.strip s).

Fixpoint available_formats (book : N) (rows : list BookFormat.t)
    : Exc (list (list (string * fmt_info))) :=
  match rows with
  | [] => Ok []
  | x :: rest =>
      m ← strip_encoding x;
      if bool_decide (m ∈ FORMAT_MATRIX.*2) then
        k ← pattern_format (BookFormat.pattern x) book;
        m' ← strip_encoding x;
        tl ← available_formats book rest;
        Ok ([(k, mk_info m' book)] :: tl)
      else available_formats book rest
  end.

(** [get_urls book], over the rows of the table [BookFormat]. *)
Definition get_urls (formats : list BookFormat.t) (book : N)
    : Exc (gmap string entry) :=
  let filtered_book :=
    List.filter (λ x, (BookFormat.book x =? book)%N) formats in
  fs ← available_formats book filtered_book;
  let files := sort_by_mime_type fs in
  build_urls (Known <$> files).

End Resolver.

(** [urllib.parse.urlparse] takes a [str] or a bytes-like object. Anything
    else is taken for bytes and sent through its [decode] method; a path
    object has none, so the call raises [AttributeError]. *)
Definition urlparse_path (u : PurePath) : Exc string := Raise AttributeError.

(** ** Ingestion of the listing *)

Record counts : Type := mk_counts {
  count_dir : N;
  count_old : N;
  count_added : N;
  count_processed : N
}.

(** The first loop of [setup_urls]: [cur] is [start_rel_path_idx], unbound
    ([None]) before the first line is read. *)
Fixpoint find_start (lines : list string) (cur : option Z) : option Z :=
  match lines with
  | [] => cur
  | line :: rest =>
      let start_rel_path_idx := Str.find line "GUTINDEX" in
      if 0 <=? start_rel_path_idx then Some start_rel_path_idx
      else find_start rest (Some start_rel_path_idx)
  end.

(** One turn of the second loop. *)
Definition ingest_line (books : list N) (start_rel_path_idx : Z)
    (st : list string * counts) (line : string) : list string * counts :=
  let tbl := st.1 in
  let c := mk_counts (count_dir st.2) (count_old st.2) (count_added st.2)
                     (count_processed st.2 + 1) in
  if Str.startswith line "d" then
    (tbl, mk_counts (count_dir c + 1) (count_old c) (count_added c)
                    (count_processed c))
  else if py_in "/old/" line then
    (tbl, mk_counts (count_dir c) (count_old c + 1) (count_added c)
                    (count_processed c))
  else if negb (bool_decide (books = [])) &&
          negb (existsb (λ book, py_in ("/" +:+ str book +:+ "/") line) books)
  then (tbl, c)
  else
    (Url.create tbl
       (Str.strip (Str.slice_from (Z.to_nat start_rel_path_idx) line)),
     mk_counts (count_dir c) (count_old c) (count_added c + 1)
               (count_processed c)).

(** The file [file_with_url] as [setup_urls] reads it: the cached listing
    when there is one and [force] is off, the output of rsync otherwise. *)
Definition listing (force : bool) (cached : option (list string))
    (rsync : list string) : list string :=
  match cached with
  | Some lines => if negb force then lines else rsync
  | None => rsync
  end.

(** [setup_urls force books]: [tbl] is the table [Url] before the call, the
    result is the table after it together with the counters. *)
Definition setup_urls (force : bool) (books : list N)
    (cached : option (list string)) (rsync : list string)
    (tbl : list string) : Exc (list string * counts) :=
  let lines := listing force cached rsync in
  match find_start lines None with
  | None => Raise (UnboundLocalError "start_rel_path_idx")
  | Some start_rel_path_idx =>
      if start_rel_path_idx =? -1 then
        Raise (ValueError "Unable to find relative path start in urls file")
      else
        Ok (fold_left (ingest_line books start_rel_path_idx) lines
              (Url.delete tbl, mk_counts 0 0 0 0))
  end.

(** ** Predicates used in the statements *)

Definition is_digit (c : ascii) : bool :=
  ((48 <=? N_of_ascii c) && (N_of_ascii c <=? 57))%N.

Fixpoint all_digits (s : string) : bool :=
  match s with
  | EmptyString => true
  | String c s' => is_digit c && all_digits s'
  end.

(** No character of [s] is the path separator. *)
Fixpoint no_sep (s : string) : bool :=
  match s with
  | EmptyString => true
  | String c s' => negb (Ascii.eqb c Pathlib.sep) && no_sep s'
  end.

(** [s] is a relative path: it does not start with the separator. *)
Definition relative (s : string) : bool := negb (Str.startswith s "/").

(** A plain name: one path component, kept as it is by the parser. *)
Definition plain (s : string) : Prop := no_sep s = true ∧ s ≠ "" ∧ s ≠ ".".

(** The three directories [build] yields for book [n]: below [BASE_TWO],
    below [BASE_ONE], and [BASE_THREE] itself. *)
Definition cache_dir (n : N) : PurePath :=
  mkPath "" ["http:"; "aleph.pglaf.org"; "cache"; "epub"; str n].

Definition files_dir (n : N) : PurePath :=
  mkPath "" (["http:"; "aleph.pglaf.org"] ++
             parts (UrlBuilder.base_url (str n) n)).

Definition etext_dir : PurePath :=
  mkPath "" ["http:"; "aleph.pglaf.org"; "etext"].

(** A path below the server: relative, with the collapsed scheme and the
    host as its first two components. *)
Definition under_server (p : PurePath) : Prop :=
  root p = "" ∧ ∃ rest, parts p = "http:" :: "aleph.pglaf.org" :: rest.

(** The epub candidates in the words of the specification: below the cache
    base, in the sharded directory of the book. *)
Definition spec_epub_candidates (n : N) : list PurePath :=
  let dir := truediv (Path [PStr UrlBuilder.BASE_TWO])
                     (PPath (UrlBuilder.base_url (str n) n)) in
  [dir </> ("pg" +:+ str n +:+ ".epub");
   dir </> ("pg" +:+ str n +:+ "-images.epub");
   dir </> ("pg" +:+ str n +:+ "-noimages.epub")].

(** The epub candidates of the code: below the cache base, in the directory
    named by the number of the book. *)
Definition epub_candidates (n : N) : list PurePath :=
  (λ sfx, mkPath "" ["http:"; "aleph.pglaf.org"; "cache"; "epub"; str n;
                     "pg" +:+ str n +:+ sfx]) <$>
  [".epub"; "-images.epub"; "-noimages.epub"].

(** The candidates of a generator as strings. *)
Definition url_strings (r : Exc (list PurePath)) : Exc (list string) :=
  fmap (M := Exc) (fmap (M := list) Pathlib.to_str) r.

(** A name that looks like an HTML file: one of the substrings that
    [build_html] hands to [index_of_substring] occurs in it. *)
Definition html_like (nm : string) : bool :=
  existsb (λ substring, py_in substring nm) ["html"; "htm"].

(** The condition of the html rule in the words of the specification: a
    file of a kind is known when the kind occurs in one of the known names,
    as [build_pdf] tests ["images"]. *)
Definition known_kind (kind : string) (file_names : list string) : bool :=
  existsb (λ nm, py_in kind nm) file_names.

Definition spec_direct_condition (file_names : list string) : bool :=
  negb (known_kind "-h.html" file_names) && known_kind "-h.zip" file_names.

(** A candidate whose path is found in the index. *)
Definition hit (url_path : PurePath → Exc string) (db : list string)
    (u : PurePath) : bool :=
  match url_path u with
  | Ok p => bool_decide (Str.slice_from 1 p ∈ db)
  | Raise _ => false
  end.

(** The path component of a candidate read off its string form: the text
    after the scheme [http:]. For the string of a candidate below the
    server, with none of the characters in it that [urlparse] treats
    specially, this is the [path] that [urlparse] finds in the string.
    The code does not make this call: it hands [urlparse] the path object
    itself, which is [urlparse_path]. [path_of_str] only serves as one more
    instance of the statements that hold for every behaviour of
    [urlparse]. *)
Definition path_of_str (u : PurePath) : Exc string :=
  let s := Pathlib.to_str u in
  Ok (if Str.startswith s "http:" then Str.slice_from 5 s else s).

(** [pattern.format(id=...)] on a pattern without replacement fields. *)
Definition format_plain (pattern : string) (book : N) : Exc string :=
  Ok pattern.

(** A listing as [rsync --list-only] prints it, one line per entry, each
    ending with a newline. *)
Definition nl : string := String "010"%char EmptyString.

Definition sample_listing : list string :=
  (λ l, l +:+ nl) <$>
  ["drwxr-xr-x          4,096 2024/03/01 10:00:00 old";
   "-rw-r--r--        123,456 2024/03/01 10:00:00 GUTINDEX.ALL";
   "-rw-r--r--          1,024 2024/03/01 10:00:00 old/README";
   "-rw-r--r--          2,048 2024/03/01 10:00:00 1/0/0/2/10023/old/10023.txt";
   "-rw-r--r--        300,000 2024/03/01 10:00:00 cache/epub/10023/pg10023.epub"].

(** The items of a list of dictionaries of [get_urls] whose MIME type is
    [mime], as the files [sort_by_mime_type] makes of them. *)
Definition files_of_mime (mime : string) (items : list (string * fmt_info))
    : list File.t :=
  (λ kv, File.mk kv.1 (info_id kv.2)) <$>
  List.filter (λ kv, String.eqb (info_mime kv.2) mime) items.

(** The lines of a listing that the second loop of [setup_urls] turns into
    rows, and the row it makes of a line. *)
Definition selected (books : list N) (line : string) : bool :=
  bool_decide (books = []) ||
  existsb (λ book, py_in ("/" +:+ str book +:+ "/") line) books.

Definition is_dir_line (line : string) : bool := Str.startswith line "d".

Definition is_old_line (line : string) : bool :=
  negb (is_dir_line line) && py_in "/old/" line.

Definition kept_line (books : list N) (line : string) : bool :=
  negb (is_dir_line line) && negb (py_in "/old/" line) && selected books line.

Definition row_of (start : Z) (line : string) : string :=
  Str.strip (Str.slice_from (Z.to_nat start) line).

(** The value a [defaultdict(list)] holds for the files [l] of a key: no
    key at all when there is no file. *)
Definition as_value (l : list File.t) : option (list File.t) :=
  match l with
  | [] => None
  | _ => Some l
  end.

(** * [gutenberg/utils.py] *)

Module Utils.

Definition NB_MAIN_LANGS : nat := 5.

(** The exceptions that reach the callers of this file. *)
Inductive error : Type :=
  | KeyError
  | OSError
  | UnicodeDecodeError
  | LookupError
  | AttributeError.

Inductive Res (A : Type) : Type :=
  | Ret (a : A)
  | Err (e : error).
Arguments Ret {A} a.
Arguments Err {A} e.

#[global] Instance Res_ret : MRet Res := λ A a, Ret a.
#[global] Instance Res_bind : MBind Res := λ A B f m,
  match m with
  | Ret a => f a
  | Err e => Err e
  end.

(** ** [exec_cmd] *)

(** The argument [cmd]: a string or a list of arguments. *)
Inductive command : Type :=
  | Line (cmd : string)
  | Args (args : list string).

Definition args_of (cmd : command) : list string :=
  match cmd with
  | Args args => args
  | Line cmd => Str.split " " cmd
  end.

(** [run] is [subprocess.run(args).returncode], [stdout] the lines printed
    so far. *)
Definition exec_cmd (run : list string → Res Z) (cmd : command)
    (stdout : list string) : list string * Res Z :=
  let args := args_of cmd in
  (stdout ++ ["** " +:+ Str.join " " args], run args).

(** ** [path_for_cmd] *)

(** The character class of the pattern: quote, double quote and space. *)
Definition special (c : ascii) : bool :=
  Ascii.eqb c "'" || Ascii.eqb c "034" || Ascii.eqb c " ".

(** [re.sub] with a function as replacement: every match, one character
    here, is replaced by a backslash and the match. *)
Fixpoint path_for_cmd (p : string) : string :=
  match p with
  | EmptyString => EmptyString
  | String c p' =>
      if special c then String "\" (String c (path_for_cmd p'))
      else String c (path_for_cmd p')
  end.

(** The number of characters of [s] that satisfy [f]. *)
Fixpoint count_if (f : ascii → bool) (s : string) : nat :=
  match s with
  | EmptyString => 0%nat
  | String c s' => ((if f c then 1 else 0) + count_if f s')%nat
  end.

Definition count_char (c : ascii) (s : string) : nat :=
  count_if (Ascii.eqb c) s.

(** ** Languages *)

Module Book.
Record t : Type := mk { id : N; language : string }.
End Book.

(** The order in which [lang_count.items()] enumerates a dictionary. *)
Class DictOrder : Type := {
  items : gmap string N → list (string * N);
  items_perm m : items m ≡ₚ map_to_list m
}.

Definition canonical_order : DictOrder.
Proof. by refine {| items := map_to_list |}. Defined.

(** [sorted(l, key=key, reverse=reverse)]: a stable sort, also when
    reversed; [le] is the order of the keys. *)
Fixpoint insert_sorted {A} (before : A → A → bool) (x : A) (l : list A)
    : list A :=
  match l with
  | [] => [x]
  | y :: l' => if before x y then x :: l else y :: insert_sorted before x l'
  end.

Definition sorted {A K} (le : K → K → bool) (key : A → K) (reverse : bool)
    (l : list A) : list A :=
  foldr (insert_sorted (λ x y, if reverse then le (key y) (key x)
                                else le (key x) (key y))) [] l.

(** The number of the books in [books] whose language is [l]. *)
Definition books_in (l : string) (books : list Book.t) : N :=
  N.of_nat (length (List.filter (λ b, String.eqb (Book.language b) l) books)).

(** The sum of the counts of a list of items. *)
Definition total (ps : list (string * N)) : nat :=
  sum_list ((λ p, N.to_nat p.2) <$> ps).

Section Languages.

Context `{DictOrder}.

(** [gutenberg.iso639.language_name] *)
Variable language_name : string → Res string.

(** The body of the loop of [get_langs_with_count]. *)
Definition count_book (lang_count : gmap string N) (book : Book.t)
    : Res (gmap string N) :=
  let l := Book.language book in
  let lang_count :=
    if bool_decide (is_Some (lang_count !! l)) then lang_count
    else <[l := 0%N]> lang_count in
  match lang_count !! l with
  | Some nb => Ret (<[l := (nb + 1)%N]> lang_count)
  | None => Err KeyError
  end.

Fixpoint count_books (books : list Book.t) (lang_count : gmap string N)
    : Res (gmap string N) :=
  match books with
  | [] => Ret lang_count
  | book :: rest =>
      lang_count ← count_book lang_count book;
      count_books rest lang_count
  end.

(** The comprehension [[(language_name(l), l, nb) for l, nb in ...]]. *)
Fixpoint named (l : list (string * N)) : Res (list (string * string * N)) :=
  match l with
  | [] => Ret []
  | (l, nb) :: rest =>
      name ← language_name l;
      tl ← named rest;
      Ret ((name, l, nb) :: tl)
  end.

Definition get_langs_with_count (books : list Book.t)
    : Res (list (string * string * N)) :=
  lang_count ← count_books books ∅;
  named (sorted N.leb snd true (items lang_count)).

Definition get_lang_groups (books : list Book.t)
    : Res (list (string * string * N) * list (string * string * N)) :=
  langs_wt_count ← get_langs_with_count books;
  if (length langs_wt_count <=? NB_MAIN_LANGS)%nat then
    Ret (langs_wt_count, [])
  else
    Ret (take NB_MAIN_LANGS langs_wt_count,
         sorted String.leb (λ x, x.1.1) false
           (drop NB_MAIN_LANGS langs_wt_count)).

End Languages.

(** Eight books in seven languages, and two behaviours of [language_name]:
    one that answers with the code itself, one that knows no Portuguese. *)
Definition sample_books : list Book.t :=
  [Book.mk 1 "en"; Book.mk 2 "fr"; Book.mk 3 "en"; Book.mk 4 "de";
   Book.mk 5 "it"; Book.mk 6 "es"; Book.mk 7 "pt"; Book.mk 8 "nl"].

Definition code_name (l : string) : Res string := Ret l.

Definition no_portuguese (l : string) : Res string :=
  if String.eqb l "pt" then Err KeyError else Ret l.

(** ** Files *)

Section Files.

(** The files that exist, with their bytes. *)
Variable fs : string → option (list Byte.byte).

(** What reading bytes as text in an encoding gives ([None] is the
    encoding of the locale). *)
Variable decode : option string → list Byte.byte → Res string.

(** [chardet.detect(...).get('encoding')] *)
Variable detect : list Byte.byte → option string.

(** [hashlib.md5(...).hexdigest()] *)
Variable md5_hexdigest : list Byte.byte → string.

Definition read_file_as (fpath : string) (encoding : option string)
    : Res string :=
  match fs fpath with
  | None => Err OSError
  | Some bytes => decode encoding bytes
  end.

Definition guess_file_encoding (fpath : string) : Res (option string) :=
  match fs fpath with
  | None => Err OSError
  | Some bytes => Ret (detect bytes)
  end.

(** The loop of [read_file]: [None] when it ends without returning. *)
Fixpoint read_file_loop (encodings : list string) (fpath : string)
    : option (Res (string * option string)) :=
  match encodings with
  | [] => None
  | encoding :: rest =>
      match read_file_as fpath (Some encoding) with
      | Ret text => Some (Ret (text, Some encoding))
      | Err UnicodeDecodeError => read_file_loop rest fpath
      | Err e => Some (Err e)
      end
  end.

Definition read_file (fpath : string) : Res (string * option string) :=
  match read_file_loop ["utf-8"; "iso-8859-1"] fpath with
  | Some r => r
  | None =>
      encoding ← guess_file_encoding fpath;
      text ← read_file_as fpath encoding;
      Ret (text, encoding)
  end.

(** [v.encode('utf-8')] on a tuple [v]: a tuple has no such attribute. *)
Definition tuple_encode (v : string * option string)
    : Res (list Byte.byte) :=
  Err AttributeError.

Definition md5sum (fpath : string) : Res string :=
  v ← read_file fpath;
  bytes ← tuple_encode v;
  Ret (md5_hexdigest bytes).

(** [path(fpath).size] *)
Definition size (fpath : string) : Res N :=
  match fs fpath with
  | None => Err OSError
  | Some bytes => Ret (N.of_nat (length bytes))
  end.

Definition is_bad_cover (fpath : string) : Res bool :=
  let bad_sizes := [19263%N] in
  let bad_sums := ["a059007e7a2e86f2bf92e4070b3e5c73"] in
  sz ← size fpath;
  if negb (bool_decide (sz ∈ bad_sizes)) then Ret false
  else
    sum ← md5sum fpath;
    Ret (bool_decide (sum ∈ bad_sums)).

End Files.

(** A file system with one file of two bytes that are no valid utf-8, a
    utf-8 codec that takes ASCII bytes only, and an iso-8859-1 codec that
    takes every byte. *)
Definition sample_fs (fpath : string) : option (list Byte.byte) :=
  if String.eqb fpath "cover.jpg" then Some [Byte.xff; Byte.xd8] else None.

Definition sample_decode (encoding : option string) (bytes : list Byte.byte)
    : Res string :=
  let text := string_of_list_ascii (ascii_of_byte <$> bytes) in
  match encoding with
  | Some "utf-8" =>
      if forallb (λ b, (Byte.to_N b <? 128)%N) bytes then Ret text
      else Err UnicodeDecodeError
  | Some "iso-8859-1" => Ret text
  | _ => Err LookupError
  end.

End Utils.


(** * Properties *)

Lemma Ok_inj {A} (a b : A) : Ok a = Ok b → a = b.
Proof. congruence. Qed.

(** ** Decimal strings *)

Lemma string_of_uint_digits d :
  all_digits (NilEmpty.string_of_uint d) = true.
Proof. induction d; simpl; auto. Qed.

Lemma str_digits n : all_digits (str n) = true.
Proof. apply string_of_uint_digits. Qed.

Lemma to_uint_cons n : N.to_uint n ≠ Decimal.Nil.
Proof.
  intros E. pose proof (Unsigned.of_to n) as R. rewrite E in R.
  simpl in R. subst n. discriminate E.
Qed.

Lemma str_nonempty n : str n ≠ "".
Proof.
  unfold str. pose proof (to_uint_cons n) as Hn.
  destruct (N.to_uint n); simpl; congruence.
Qed.

Lemma int_str n : int (str n) = Ok n.
Proof.
  unfold int. pose proof (str_nonempty n) as Hn.
  destruct (str n) eqn:E; [congruence|].
  rewrite <- E. unfold str. rewrite NilEmpty.usu, Unsigned.of_to. reflexivity.
Qed.

Lemma str_small n : (String.length (str n) ≤ 1)%nat → (n ≤ 9)%N.
Proof.
  unfold str. intros Hlen. rewrite <- (Unsigned.of_to n).
  destruct (N.to_uint n) as [|d|d|d|d|d|d|d|d|d|d];
    try (destruct d; simpl in Hlen; [vm_compute; discriminate|lia..]).
  vm_compute; discriminate.
Qed.

Lemma str_length_ge2 n : (10 ≤ n)%N → (2 ≤ String.length (str n))%nat.
Proof.
  intros Hn. destruct (decide (String.length (str n) ≤ 1)%nat) as [Hs|]; [|lia].
  apply str_small in Hs. lia.
Qed.

Lemma is_digit_not_sep c : is_digit c = true → Ascii.eqb c Pathlib.sep = false.
Proof.
  intros Hc. destruct (Ascii.eqb_spec c Pathlib.sep) as [->|]; [|done].
  discriminate Hc.
Qed.

Lemma all_digits_no_sep s : all_digits s = true → no_sep s = true.
Proof.
  induction s as [|c s IH]; simpl; [done|].
  intros [Hc Hs]%andb_true_iff. rewrite (is_digit_not_sep c Hc). simpl. auto.
Qed.

Lemma no_sep_app a b : no_sep (a +:+ b) = no_sep a && no_sep b.
Proof.
  induction a as [|c a IH]; simpl; [done|]. rewrite IH. apply andb_assoc.
Qed.

Lemma all_digits_drop_last s : all_digits s = true → all_digits (Str.drop_last s) = true.
Proof.
  induction s as [|c s IH]; simpl; [done|].
  intros [Hc Hs]%andb_true_iff. destruct s; [done|].
  change (is_digit c && all_digits (Str.drop_last (String a s)) = true).
  rewrite Hc. simpl. auto.
Qed.

Lemma length_drop_last s :
  String.length (Str.drop_last s) = (String.length s - 1)%nat.
Proof.
  induction s as [|c s IH]; simpl; [done|]. destruct s; [done|].
  change (S (String.length (Str.drop_last (String a s))) =
          (S (String.length (String a s)) - 1)%nat).
  rewrite IH. simpl. lia.
Qed.

Lemma length_chars s : length (Str.chars s) = String.length s.
Proof. induction s; simpl; auto. Qed.

Lemma chars_lookup s i c :
  String.get i s = Some c → Str.chars s !! i = Some (String c EmptyString).
Proof.
  revert i. induction s as [|a s IH]; intros [|i]; simpl; try discriminate.
  - congruence.
  - apply IH.
Qed.

Lemma get_drop_last s i :
  (S i < String.length s)%nat → String.get i (Str.drop_last s) = String.get i s.
Proof.
  revert i. induction s as [|a s IH]; intros i; simpl; [lia|].
  destruct s as [|b s]; [simpl; lia|]. intros Hi.
  change (String.get i (String a (Str.drop_last (String b s))) =
          String.get i (String a (String b s))).
  destruct i as [|i]; [done|].
  change (String.get i (Str.drop_last (String b s)) = String.get i (String b s)).
  apply IH. simpl in *. lia.
Qed.

(** ** Parsing and joining paths *)

Lemma split_no_sep s : no_sep s = true → Str.split Pathlib.sep s = [s].
Proof.
  induction s as [|c s IH]; simpl; [done|].
  intros [Hc Hs]%andb_true_iff. apply negb_true_iff in Hc.
  rewrite Hc, (IH Hs). reflexivity.
Qed.

Lemma splitroot_relative s : relative s = true → Pathlib.splitroot s = ("", s).
Proof.
  unfold relative, Pathlib.splitroot. intros Hs%negb_true_iff. by rewrite Hs.
Qed.

Lemma no_sep_relative s : no_sep s = true → relative s = true.
Proof.
  destruct s as [|c s]; [done|]. cbn [no_sep]. intros [Hc _]%andb_true_iff.
  unfold relative. cbn [Str.startswith].
  rewrite andb_true_r, Ascii.eqb_sym. exact Hc.
Qed.

(** A plain name (no separator, neither empty nor a dot) parses to itself. *)
Lemma parse_plain s :
  no_sep s = true → s ≠ "" → s ≠ "." → Pathlib.parse s = mkPath "" [s].
Proof.
  intros Hs He Hd. unfold Pathlib.parse.
  rewrite (splitroot_relative s (no_sep_relative s Hs)), (split_no_sep s Hs).
  simpl. unfold Pathlib.keep.
  destruct (String.eqb_spec s ""); [done|].
  destruct (String.eqb_spec s "."); done.
Qed.

Lemma parse_relative_root s : relative s = true → root (Pathlib.parse s) = "".
Proof.
  intros Hs. unfold Pathlib.parse. by rewrite (splitroot_relative s Hs).
Qed.

Lemma plain_digits s : all_digits s = true → s ≠ "" → plain s.
Proof.
  intros Hd He. split_and!; [by apply all_digits_no_sep|done|].
  intros ->. discriminate Hd.
Qed.

Lemma plain_chars s : all_digits s = true → Forall plain (Str.chars s).
Proof.
  induction s as [|c s IH]; simpl; [constructor|].
  intros [Hc Hs]%andb_true_iff. constructor; [|auto].
  apply plain_digits; [|done]. simpl. by rewrite Hc.
Qed.

Lemma joinpath_relative p q :
  root q = "" → Pathlib.joinpath p q = mkPath (root p) (parts p ++ parts q).
Proof. intros Hq. unfold Pathlib.joinpath. by rewrite Hq. Qed.

Lemma truediv_plain p s : plain s → p </> s = mkPath (root p) (parts p ++ [s]).
Proof.
  intros (Hs & He & Hd). unfold truediv. simpl.
  rewrite (parse_plain s Hs He Hd). by apply joinpath_relative.
Qed.

Lemma truediv_relative p s :
  relative s = true →
  p </> s = mkPath (root p) (parts p ++ parts (Pathlib.parse s)).
Proof.
  intros Hs. unfold truediv. simpl.
  by rewrite joinpath_relative by by apply parse_relative_root.
Qed.

Lemma fold_plain r acc l :
  Forall plain l →
  fold_left (λ acc a, Pathlib.joinpath acc (to_path a)) (PStr <$> l)
    (mkPath r acc) = mkPath r (acc ++ l).
Proof.
  intros Hl. revert acc. induction Hl as [|s l Hs _ IH]; intros acc; simpl.
  - by rewrite app_nil_r.
  - change (Pathlib.joinpath (mkPath r acc) (Pathlib.parse s))
      with (mkPath r acc </> s).
    rewrite (truediv_plain _ s Hs). simpl. rewrite IH.
    by rewrite <- app_assoc.
Qed.

Lemma Path_plain l : Forall plain l → Path (PStr <$> l) = mkPath "" l.
Proof. intros Hl. unfold Path, Pathlib.empty. by rewrite fold_plain. Qed.

Lemma plain_str n : plain (str n).
Proof. apply plain_digits; [apply str_digits | apply str_nonempty]. Qed.

(** The directory of a book with a number above ten: the digits of the
    number but the last, then the number. *)
Lemma base_url_above n :
  (10 < n)%N →
  UrlBuilder.base_url (str n) n =
  mkPath "" (Str.chars (Str.drop_last (str n)) ++ [str n]).
Proof.
  intros Hn. unfold UrlBuilder.base_url.
  destruct (N.ltb_spec 10 n) as [_|]; [|lia].
  rewrite Path_plain
    by (apply plain_chars, all_digits_drop_last, str_digits).
  by rewrite (truediv_plain _ _ (plain_str n)).
Qed.

Lemma base_url_below n :
  (n ≤ 10)%N → UrlBuilder.base_url (str n) n = mkPath "" ["0"; str n].
Proof.
  intros Hn. unfold UrlBuilder.base_url.
  destruct (N.ltb_spec 10 n) as [|_]; [lia|].
  by rewrite (truediv_plain _ _ (plain_str n)).
Qed.

Lemma base_url_root n : root (UrlBuilder.base_url (str n) n) = "".
Proof.
  destruct (decide (10 < n)%N).
  - by rewrite base_url_above.
  - by rewrite base_url_below by lia.
Qed.

Lemma get_digit s i c :
  all_digits s = true → String.get i s = Some c → is_digit c = true.
Proof.
  revert i. induction s as [|a s IH]; intros i; simpl; [done|].
  intros [Ha Hs]%andb_true_iff. destruct i as [|i]; [congruence|]. eauto.
Qed.

(** [build] on the three bases, for the identifier of a book. *)
Lemma build_base_one n :
  UrlBuilder.build (UrlBuilder.mk UrlBuilder.BASE_ONE (Some (str n))) =
  Ok (PPath (mkPath "" (["http:"; "aleph.pglaf.org"] ++
                        parts (UrlBuilder.base_url (str n) n)))).
Proof.
  unfold UrlBuilder.build. simpl. rewrite int_str. simpl.
  unfold truediv. simpl to_path.
  rewrite joinpath_relative by apply base_url_root. reflexivity.
Qed.

Lemma build_base_two n :
  UrlBuilder.build (UrlBuilder.mk UrlBuilder.BASE_TWO (Some (str n))) =
  Ok (PPath (mkPath "" ["http:"; "aleph.pglaf.org"; "cache"; "epub"; str n])).
Proof.
  unfold UrlBuilder.build. simpl.
  rewrite (truediv_plain _ _ (plain_str n)). reflexivity.
Qed.

Lemma build_base_three b :
  UrlBuilder.build (UrlBuilder.mk UrlBuilder.BASE_THREE b) =
  Ok (PStr UrlBuilder.BASE_THREE).
Proof. reflexivity. Qed.

(** C4. The sharded path of a book, which [build] appends to [BASE_ONE].
    For [n > 10] it has as many segments as [str(n)] has digits: segment [i]
    is the [i]-th digit for every digit but the last (so [len(str(n)) - 1]
    one-digit segments), and the final segment is the whole number. For
    [n <= 10] it is [0/n]. *)
Theorem sharded_path (n : N) :
  let b_id := str n in
  let p := UrlBuilder.base_url b_id n in
  UrlBuilder.build (UrlBuilder.with_id UrlBuilder.init b_id) =
    Ok (PPath (mkPath "" ("http:" :: "aleph.pglaf.org" :: parts p))) ∧
  root p = "" ∧
  ((10 < n)%N →
     length (parts p) = String.length b_id ∧
     (∀ i c, (S i < String.length b_id)%nat → String.get i b_id = Some c →
        is_digit c = true ∧ parts p !! i = Some (String c EmptyString)) ∧
     last (parts p) = Some b_id) ∧
  ((n ≤ 10)%N → parts p = ["0"; b_id] ∧ Pathlib.to_str p = "0/" +:+ b_id).
Proof.
  intros b_id p. split_and!.
  - apply build_base_one.
  - apply base_url_root.
  - intros Hn. subst p b_id. rewrite (base_url_above n Hn). simpl.
    split_and!.
    + rewrite length_app, length_chars, length_drop_last. simpl.
      pose proof (str_length_ge2 n). lia.
    + intros i c Hi Hc. split; [by eapply get_digit, Hc; apply str_digits|].
      rewrite lookup_app_l
        by (rewrite length_chars, length_drop_last; lia).
      apply chars_lookup. by rewrite get_drop_last.
    + apply last_snoc.
  - intros Hn. subst p b_id. by rewrite (base_url_below n Hn).
Qed.

Lemma sharded_path_witness :
  (10 < 10023)%N ∧ (7 ≤ 10)%N ∧
  parts (UrlBuilder.base_url (str 10023) 10023) !! 3%nat = Some "2" ∧
  last (parts (UrlBuilder.base_url (str 10023) 10023)) = Some "10023" ∧
  Pathlib.to_str (UrlBuilder.base_url (str 7) 7) = "0/7".
Proof.
  split; [reflexivity|]. split; [discriminate|].
  destruct (sharded_path 10023) as (_ & _ & Ha & _).
  destruct (sharded_path 7) as (_ & _ & _ & Hb).
  destruct (Ha eq_refl) as (_ & Hd & Hl).
  split_and!.
  - apply (Hd 3%nat "2"%char); [simpl; lia | reflexivity].
  - exact Hl.
  - apply Hb. discriminate.
Defined.

Example build_one_10023 :
  UrlBuilder.build (UrlBuilder.with_id UrlBuilder.init "10023") =
  Ok (PPath (mkPath "" ["http:"; "aleph.pglaf.org"; "1"; "0"; "0"; "2"; "10023"])).
Proof. reflexivity. Qed.

Example sharded_10023 :
  Pathlib.to_str (UrlBuilder.base_url "10023" 10023) = "1/0/0/2/10023".
Proof. reflexivity. Qed.

(** ** Indexing *)

Lemma getitem_0 {A} (x : A) l : getitem (x :: l) 0 = Ok x.
Proof.
  unfold getitem. simpl length.
  destruct (Z.leb_spec 0 0); [|lia].
  destruct (Z.ltb_spec 0 (Z.of_nat (S (length l)))); [|lia]. reflexivity.
Qed.

Lemma getitem_nil {A} i : getitem (@nil A) i = Raise IndexError.
Proof.
  unfold getitem. simpl.
  destruct (i <? 0); destruct (_ && _) eqn:E; try reflexivity;
    apply andb_true_iff in E as [?%Z.leb_le ?%Z.ltb_lt]; lia.
Qed.

(** [l[-1]] is the last element. *)
Lemma getitem_last {A} (l : list A) x : last l = Some x → getitem l (-1) = Ok x.
Proof.
  intros Hl. unfold getitem.
  assert (0 < length l)%nat as Hn
    by (destruct l; [discriminate Hl | simpl; lia]).
  change (-1 <? 0) with true. cbv iota.
  destruct (Z.leb_spec 0 (-1 + Z.of_nat (length l))); [|lia].
  destruct (Z.ltb_spec (-1 + Z.of_nat (length l)) (Z.of_nat (length l))); [|lia].
  simpl. rewrite last_lookup in Hl.
  replace (Z.to_nat (-1 + Z.of_nat (length l))) with (pred (length l)) by lia.
  by rewrite Hl.
Qed.

(** On the dictionaries of known files the test [substring in s] looks at
    the keys, never at the file name: the index is always [-1]. *)
Lemma index_of_substring_files_from (files : list File.t) i :
  index_of_substring_from files ["html"; "htm"] i = -1.
Proof. revert i. induction files as [|f files IH]; intros i; simpl; auto. Qed.

Lemma index_of_substring_files (files : list File.t) :
  index_of_substring files ["html"; "htm"] = -1.
Proof. apply index_of_substring_files_from. Qed.

(** On the file names themselves the function finds the first name that
    contains one of the substrings. *)
Example index_of_substring_names :
  index_of_substring ["10023-8.txt"; "10023-h.htm"; "10023-h.zip"]
    ["html"; "htm"] = 1.
Proof. reflexivity. Qed.

Lemma last_is_Some {A} (x : A) l : ∃ y, last (x :: l) = Some y ∧ y ∈ x :: l.
Proof.
  destruct (last (x :: l)) as [y|] eqn:E.
  - exists y. split; [done|]. rewrite last_lookup in E.
    by eapply list_elem_of_lookup_2.
  - by apply last_None in E.
Qed.

(** ** The generators in closed form *)

Lemma Path_single p : Path [PPath p] = p.
Proof.
  unfold Path. simpl. unfold Pathlib.joinpath.
  destruct p as [r ps]. simpl. by destruct (String.eqb_spec r "") as [->|].
Qed.

Lemma mapM_Ok {A B} (f : A → B) (l : list A) :
  mapM (λ x, Ok (f x)) l = Ok (f <$> l).
Proof. induction l as [|x l IH]; simpl; [done|]. by rewrite IH. Qed.

Ltac run_builder :=
  cbv beta iota zeta delta
    [mbind Exc_bind UrlBuilder.with_base UrlBuilder.with_id UrlBuilder.init
     UrlBuilder.base UrlBuilder.b_id];
  rewrite ?build_base_one, ?build_base_two, ?build_base_three;
  cbv beta iota zeta delta [mbind Exc_bind truthy negb].

Lemma build_epub_eq f fs :
  let n := File.id f in
  build_epub (f :: fs) =
  Ok [cache_dir n </> ("pg" +:+ str n +:+ ".epub");
      cache_dir n </> ("pg" +:+ str n +:+ "-images.epub");
      cache_dir n </> ("pg" +:+ str n +:+ "-noimages.epub")].
Proof.
  intros n. unfold build_epub. rewrite getitem_0. run_builder.
  by rewrite !Path_single.
Qed.

Lemma build_pdf_eq `{SetOrder} f fs :
  let n := File.id f in
  build_pdf (f :: fs) =
  Ok (list_set
        (((λ i, cache_dir n </> File.name i) <$>
          List.filter (λ i, negb (py_in "images" (File.name i))) (f :: fs)) ++
         [cache_dir n </> (str n +:+ "-pdf.pdf");
          cache_dir n </> (str n +:+ ".pdf");
          cache_dir n </> ("pg" +:+ str n +:+ ".pdf");
          files_dir n </> (str n +:+ "-pdf.pdf")])).
Proof.
  intros n. unfold build_pdf. rewrite getitem_0. run_builder.
  by rewrite !Path_single.
Qed.

Lemma build_html_eq `{SetOrder} f fs fl :
  let n := File.id f in
  let files := f :: fs in
  let file_names := File.name <$> files in
  last files = Some fl →
  build_html files =
  Ok (list_set
        ((if bool_decide ("-h.html" ∉ file_names) &&
             bool_decide ("-h.zip" ∈ file_names)
          then (λ i, files_dir n </> File.name i) <$> files else []) ++
         [files_dir n </> (str n +:+ "-h.zip");
          files_dir n </> (str n +:+ "-h.htm");
          files_dir n </> (str n +:+ "-h.html");
          cache_dir n </> ("pg" +:+ str n +:+ ".html.utf8")] ++
         ((λ i, etext_dir </> i </> File.name fl) <$> (fmt_02d <$> etext_nums)))).
Proof.
  intros n files file_names Hl. unfold build_html. subst files.
  rewrite getitem_0. run_builder.
  rewrite index_of_substring_files, (getitem_last _ _ Hl). run_builder.
  rewrite (mapM_Ok (λ i, Path [PStr UrlBuilder.BASE_THREE; PStr i;
                               PStr (File.name fl)])).
  rewrite !Path_single. reflexivity.
Qed.

(** Two enumerations of the same candidates differ by a permutation. *)
Lemma list_set_perm (o1 o2 : SetOrder) l :
  @list_set o1 l ≡ₚ @list_set o2 l.
Proof.
  apply NoDup_Permutation; [apply list_set_NoDup..|].
  intros x. by rewrite !list_set_elem.
Qed.

Lemma build_pdf_perm (o1 o2 : SetOrder) files l1 l2 :
  @build_pdf o1 files = Ok l1 → @build_pdf o2 files = Ok l2 → l1 ≡ₚ l2.
Proof.
  destruct files as [|f fs].
  - unfold build_pdf. by rewrite getitem_nil.
  - rewrite !build_pdf_eq. intros <-%Ok_inj <-%Ok_inj. apply list_set_perm.
Qed.

Lemma build_html_perm (o1 o2 : SetOrder) files l1 l2 :
  @build_html o1 files = Ok l1 → @build_html o2 files = Ok l2 → l1 ≡ₚ l2.
Proof.
  destruct files as [|f fs].
  - unfold build_html. by rewrite getitem_nil.
  - destruct (last_is_Some f fs) as (fl & Hl & _).
    rewrite !(build_html_eq f fs fl Hl). intros <-%Ok_inj <-%Ok_inj.
    apply list_set_perm.
Qed.

(** The order itself is that of the enumeration: under two enumerations the
    same book gets its pdf candidates in two orders. *)
Example build_pdf_two_orders :
  build_pdf (H := insertion_order) [File.mk "7.pdf" 7] ≠
  build_pdf (H := reverse_order) [File.mk "7.pdf" 7].
Proof. vm_compute. discriminate. Qed.

(** ** The epub rule *)

Lemma plain_pg n sfx : no_sep sfx = true → plain ("pg" +:+ str n +:+ sfx).
Proof.
  intros Hs. split_and!; [|done..].
  change ("pg" +:+ str n +:+ sfx) with (String "p" (String "g" (str n +:+ sfx))).
  cbn [no_sep]. rewrite no_sep_app, Hs, all_digits_no_sep by apply str_digits.
  reflexivity.
Qed.

(** C5, as the code has it. For every book the epub generator yields three
    candidates, in this order: [pgN.epub], [pgN-images.epub] and
    [pgN-noimages.epub], each in the directory [cache/epub/N] named by the
    whole number [N] of the book; the number is not split into digits. *)
Theorem build_epub_candidates (f : File.t) (fs : list File.t) :
  let n := File.id f in
  build_epub (f :: fs) = Ok (epub_candidates n) ∧
  Pathlib.to_str <$> epub_candidates n =
    (λ sfx, "http:/aleph.pglaf.org/cache/epub/" +:+ str n +:+ "/pg" +:+
            str n +:+ sfx) <$> [".epub"; "-images.epub"; "-noimages.epub"].
Proof.
  intros n. split.
  - rewrite build_epub_eq. fold n. unfold epub_candidates, cache_dir.
    by rewrite !truediv_plain by by apply plain_pg.
  - reflexivity.
Qed.

(** C5 fails as stated: the candidates of book 10023 are not in the
    sharded directory [1/0/0/2/10023], and those of book 7 are not in [0/7]. *)
Lemma build_epub_not_sharded :
  build_epub [File.mk "pg10023.epub" 10023] ≠ Ok (spec_epub_candidates 10023) ∧
  Pathlib.to_str <$> spec_epub_candidates 10023 =
    ["http:/aleph.pglaf.org/cache/epub/1/0/0/2/10023/pg10023.epub";
     "http:/aleph.pglaf.org/cache/epub/1/0/0/2/10023/pg10023-images.epub";
     "http:/aleph.pglaf.org/cache/epub/1/0/0/2/10023/pg10023-noimages.epub"] ∧
  url_strings (build_epub [File.mk "pg10023.epub" 10023]) =
    Ok ["http:/aleph.pglaf.org/cache/epub/10023/pg10023.epub";
        "http:/aleph.pglaf.org/cache/epub/10023/pg10023-images.epub";
        "http:/aleph.pglaf.org/cache/epub/10023/pg10023-noimages.epub"] ∧
  build_epub [File.mk "pg7.epub" 7] ≠ Ok (spec_epub_candidates 7).
Proof. split_and!; [discriminate | reflexivity | reflexivity | discriminate]. Qed.

(** ** The shape of the candidates *)

Lemma under_server_truediv p s :
  under_server p → relative s = true → under_server (p </> s).
Proof.
  intros [Hr [rest Hp]] Hs. rewrite (truediv_relative p s Hs).
  split; [done|]. simpl. rewrite Hp. eauto.
Qed.

Lemma under_server_str p :
  under_server p →
  Str.startswith (Pathlib.to_str p) "http:/aleph.pglaf.org" = true ∧
  Str.startswith (Pathlib.to_str p) "http://" = false.
Proof.
  destruct p as [r ps]. intros [Hr [rest Hp]]. simpl in *. subst r ps.
  destruct rest; split; reflexivity.
Qed.

Lemma relative_plain s : plain s → relative s = true.
Proof. intros [Hs _]. by apply no_sep_relative. Qed.

Lemma relative_str_app n sfx : relative (str n +:+ sfx) = true.
Proof.
  pose proof (str_digits n) as Hd. pose proof (str_nonempty n) as Hn.
  destruct (str n) as [|c s]; [done|].
  apply andb_true_iff in Hd as [Hc _]. apply is_digit_not_sep in Hc.
  unfold relative.
  change (negb ((Ascii.eqb "/" c) && Str.startswith (s +:+ sfx) "") = true).
  rewrite Ascii.eqb_sym. unfold Pathlib.sep in Hc. by rewrite Hc.
Qed.

Lemma under_server_cache n : under_server (cache_dir n).
Proof. split; [done|]. unfold cache_dir. simpl. eauto. Qed.

Lemma under_server_files n : under_server (files_dir n).
Proof. split; [done|]. unfold files_dir. simpl. eauto. Qed.

Lemma under_server_etext : under_server etext_dir.
Proof. split; [done|]. unfold etext_dir. simpl. eauto. Qed.

Lemma etext_names_relative :
  Forall (λ i, relative i = true) (fmt_02d <$> etext_nums).
Proof.
  apply Forall_forall. intros i Hi%list_elem_of_In. vm_compute in Hi.
  repeat (destruct Hi as [<-|Hi]; [reflexivity|]). destruct Hi.
Qed.

Lemma build_epub_under f fs urls u :
  build_epub (f :: fs) = Ok urls → u ∈ urls → under_server u.
Proof.
  rewrite build_epub_eq. intros <-%Ok_inj Hu.
  repeat (apply elem_of_cons in Hu as [->|Hu];
          [apply under_server_truediv;
            [apply under_server_cache | apply relative_plain, plain_pg; done]|]).
  by apply elem_of_nil in Hu.
Qed.

Section Shape.

Context `{SetOrder}.

Lemma build_pdf_under f fs urls u :
  Forall (λ x, relative (File.name x) = true) (f :: fs) →
  build_pdf (f :: fs) = Ok urls → u ∈ urls → under_server u.
Proof.
  intros Hrel. rewrite build_pdf_eq. intros <-%Ok_inj Hu.
  apply (proj1 (list_set_elem _ _)), elem_of_app in Hu as [Hu|Hu].
  - apply list_elem_of_fmap in Hu as (x & -> & Hx).
    apply list_elem_of_In in Hx.
    apply (proj1 (filter_In (λ i, negb (py_in "images" (File.name i)))
                   x (f :: fs))) in Hx as [Hx%list_elem_of_In _].
    apply under_server_truediv; [apply under_server_cache|].
    by eapply (proj1 (Forall_forall _ _) Hrel).
  - repeat (apply elem_of_cons in Hu as [->|Hu];
            [apply under_server_truediv;
               [first [apply under_server_cache | apply under_server_files]
               |first [apply relative_str_app
                      |apply relative_plain, plain_pg; done]]|]).
    by apply elem_of_nil in Hu.
Qed.

Lemma build_html_under f fs urls u :
  Forall (λ x, relative (File.name x) = true) (f :: fs) →
  build_html (f :: fs) = Ok urls → u ∈ urls → under_server u.
Proof.
  intros Hrel. destruct (last_is_Some f fs) as (fl & Hl & Hfl).
  rewrite (build_html_eq f fs fl Hl). intros <-%Ok_inj Hu.
  pose proof (proj1 (Forall_forall _ _) Hrel) as Hall.
  apply (proj1 (list_set_elem _ _)) in Hu.
  apply elem_of_app in Hu as [Hu|Hu]; [|apply elem_of_app in Hu as [Hu|Hu]].
  - destruct (_ && _); [|by apply elem_of_nil in Hu].
    apply list_elem_of_fmap in Hu as (x & -> & Hx).
    apply under_server_truediv; [apply under_server_files | by apply Hall].
  - repeat (apply elem_of_cons in Hu as [->|Hu];
            [apply under_server_truediv;
               [first [apply under_server_cache | apply under_server_files]
               |first [apply relative_str_app
                      |apply relative_plain, plain_pg; done]]|]).
    by apply elem_of_nil in Hu.
  - apply list_elem_of_fmap in Hu as (i & -> & Hi).
    apply under_server_truediv; [|by apply Hall].
    apply under_server_truediv; [apply under_server_etext|].
    by eapply (proj1 (Forall_forall _ _) etext_names_relative).
Qed.

(** C10, as the code has it. When no known file name starts with a slash,
    every candidate of the three generators, written as a string, begins
    with [http:/aleph.pglaf.org]: one slash follows the scheme, never two. *)
Theorem candidates_single_slash
    (g : list File.t → Exc (list PurePath)) (files : list File.t)
    (urls : list PurePath) (u : PurePath) :
  g ∈ [build_epub; build_pdf; build_html] →
  Forall (λ x, relative (File.name x) = true) files →
  g files = Ok urls → u ∈ urls →
  Str.startswith (Pathlib.to_str u) "http:/aleph.pglaf.org" = true ∧
  Str.startswith (Pathlib.to_str u) "http://" = false.
Proof.
  intros Hg Hrel Hrun Hu. apply under_server_str.
  destruct files as [|f fs].
  { repeat (apply elem_of_cons in Hg as [->|Hg];
            [unfold build_epub, build_pdf, build_html in Hrun;
             rewrite getitem_nil in Hrun; discriminate Hrun|]).
    by apply elem_of_nil in Hg. }
  apply elem_of_cons in Hg as [->|Hg]; [by eapply build_epub_under|].
  apply elem_of_cons in Hg as [->|Hg]; [by eapply build_pdf_under|].
  apply elem_of_cons in Hg as [->|Hg]; [by eapply build_html_under|].
  by apply elem_of_nil in Hg.
Qed.

End Shape.

Lemma candidates_single_slash_witness :
  Str.startswith
    "http:/aleph.pglaf.org/1/0/0/2/10023/10023-pdf.pdf"
    "http:/aleph.pglaf.org" = true ∧
  Str.startswith
    "http:/aleph.pglaf.org/1/0/0/2/10023/10023-pdf.pdf" "http://" = false.
Proof.
  apply (candidates_single_slash (H := insertion_order)
           (build_pdf (H := insertion_order))
           [File.mk "10023.pdf" 10023]
           (remove_dups
              [cache_dir 10023 </> "10023.pdf";
               cache_dir 10023 </> "10023-pdf.pdf";
               cache_dir 10023 </> "10023.pdf";
               cache_dir 10023 </> "pg10023.pdf";
               files_dir 10023 </> "10023-pdf.pdf"])
           (files_dir 10023 </> "10023-pdf.pdf")).
  - apply elem_of_cons; right. apply elem_of_cons; left. reflexivity.
  - repeat constructor.
  - reflexivity.
  - apply elem_of_remove_dups. do 4 (apply elem_of_cons; right).
    apply elem_of_cons; left. reflexivity.
Defined.

(** C10 fails as stated: a known file name that starts with a slash is an
    absolute path, and joining it drops the server altogether. *)
Lemma absolute_name_escapes :
  url_strings (build_pdf (H := insertion_order) [File.mk "/x.pdf" 10023]) =
    Ok ["/x.pdf";
        "http:/aleph.pglaf.org/cache/epub/10023/10023-pdf.pdf";
        "http:/aleph.pglaf.org/cache/epub/10023/10023.pdf";
        "http:/aleph.pglaf.org/cache/epub/10023/pg10023.pdf";
        "http:/aleph.pglaf.org/1/0/0/2/10023/10023-pdf.pdf"] ∧
  Str.startswith "/x.pdf" "http:/aleph.pglaf.org" = false.
Proof. split; reflexivity. Qed.

(** ** The html rule *)

Section Html.

Context `{SetOrder}.

(** C3, as the code has it. For a book with at least one known file, none
    of whose names looks like an HTML file, [build_html] raises no error: it
    returns a list that holds the four candidates with fixed names and, for
    each of the sixteen year labels, a candidate made of the label and the
    name of a known file, the same for all labels. *)
Theorem build_html_no_error (f : File.t) (fs : list File.t) :
  let n := File.id f in
  Forall (λ x, html_like (File.name x) = false) (f :: fs) →
  ∃ urls, build_html (f :: fs) = Ok urls ∧
    files_dir n </> (str n +:+ "-h.zip") ∈ urls ∧
    files_dir n </> (str n +:+ "-h.htm") ∈ urls ∧
    files_dir n </> (str n +:+ "-h.html") ∈ urls ∧
    cache_dir n </> ("pg" +:+ str n +:+ ".html.utf8") ∈ urls ∧
    ∃ fl, fl ∈ f :: fs ∧
      ∀ i, i ∈ fmt_02d <$> etext_nums →
           etext_dir </> i </> File.name fl ∈ urls.
Proof.
  intros n _. destruct (last_is_Some f fs) as (fl & Hl & Hfl).
  rewrite (build_html_eq f fs fl Hl). fold n.
  eexists. split; [reflexivity|].
  split_and!; try (apply list_set_elem; rewrite !elem_of_app, !elem_of_cons; tauto).
  exists fl. split; [done|].
  intros i Hi. apply list_set_elem. rewrite !elem_of_app. right; right.
  apply list_elem_of_fmap. by exists i.
Qed.

(** C6: where the code leaves the claim. The book knows a [-h.zip] file and
    no [-h.html] file, yet no direct candidate is made for its other known
    file: the rule looks for a known name equal to ["-h.zip"]. *)
Theorem build_html_direct_missing :
  let files := [File.mk "10023-h.zip" 10023;
                File.mk "10023-h/10023-h.htm" 10023] in
  spec_direct_condition (File.name <$> files) = true ∧
  ∃ urls, build_html files = Ok urls ∧
          files_dir 10023 </> "10023-h/10023-h.htm" ∉ urls.
Proof.
  intros files. split; [reflexivity|].
  subst files. erewrite build_html_eq by reflexivity.
  eexists. split; [reflexivity|].
  rewrite list_set_elem. refine (bool_decide_eq_false_1 _ _).
  vm_compute. reflexivity.
Qed.

(** The direct candidates are made exactly when some known name is the
    string ["-h.zip"] and none is the string ["-h.html"]. *)
Lemma build_html_direct f fs urls x :
  let file_names := File.name <$> f :: fs in
  build_html (f :: fs) = Ok urls →
  "-h.html" ∉ file_names → "-h.zip" ∈ file_names → x ∈ f :: fs →
  files_dir (File.id f) </> File.name x ∈ urls.
Proof.
  intros file_names Hrun Hno Hzip Hx.
  destruct (last_is_Some f fs) as (fl & Hl & _).
  rewrite (build_html_eq f fs fl Hl) in Hrun. apply Ok_inj in Hrun as <-.
  apply list_set_elem. fold file_names.
  rewrite (bool_decide_eq_true_2 _ Hno), (bool_decide_eq_true_2 _ Hzip).
  apply elem_of_app. left. apply list_elem_of_fmap. by exists x.
Qed.

(** Otherwise the list holds the fixed names and the year labels only. *)
Lemma build_html_no_direct f fs fl urls u :
  let n := File.id f in
  let file_names := File.name <$> f :: fs in
  last (f :: fs) = Some fl →
  build_html (f :: fs) = Ok urls →
  (¬ (("-h.html" ∉ file_names) ∧ ("-h.zip" ∈ file_names))) → u ∈ urls →
  u ∈ [files_dir n </> (str n +:+ "-h.zip");
       files_dir n </> (str n +:+ "-h.htm");
       files_dir n </> (str n +:+ "-h.html");
       cache_dir n </> ("pg" +:+ str n +:+ ".html.utf8")] ∨
  ∃ i, i ∈ fmt_02d <$> etext_nums ∧ u = etext_dir </> i </> File.name fl.
Proof.
  intros n file_names Hl Hrun Hcond Hu.
  rewrite (build_html_eq f fs fl Hl) in Hrun. apply Ok_inj in Hrun as <-.
  apply (proj1 (list_set_elem _ _)) in Hu. fold file_names n in Hu.
  destruct (bool_decide ("-h.html" ∉ file_names) &&
            bool_decide ("-h.zip" ∈ file_names)) eqn:E.
  - apply andb_true_iff in E
      as [E1%bool_decide_eq_true E2%bool_decide_eq_true].
    by destruct Hcond.
  - apply elem_of_app in Hu as [Hu|Hu]; [by apply elem_of_nil in Hu|].
    apply elem_of_app in Hu as [Hu|Hu]; [by left|].
    right. apply list_elem_of_fmap in Hu as (i & -> & Hi). by exists i.
Qed.

End Html.

Lemma build_html_no_error_witness :
  ∃ urls,
    build_html (H := insertion_order) [File.mk "10023-8.txt" 10023] = Ok urls ∧
    files_dir 10023 </> "10023-h.zip" ∈ urls ∧
    etext_dir </> "05" </> "10023-8.txt" ∈ urls.
Proof.
  destruct (build_html_no_error (H := insertion_order)
              (File.mk "10023-8.txt" 10023) [])
    as (urls & Hrun & Hzip & _ & _ & _ & fl & Hfl & Hetext).
  - repeat constructor.
  - exists urls. split_and!; [exact Hrun | exact Hzip |].
    apply list_elem_of_singleton in Hfl. subst fl.
    apply (Hetext "05"). rewrite list_elem_of_fmap. exists 5%N.
    split; [reflexivity|]. apply list_elem_of_In. vm_compute. tauto.
Defined.

(** C3 fails as stated: the only known name of the book does not look like
    an HTML file, and [build_html] returns its twenty candidates. *)
Lemma build_html_without_html_name :
  html_like "10023-8.txt" = false ∧
  ¬ raises (build_html (H := insertion_order) [File.mk "10023-8.txt" 10023]) ∧
  url_strings (build_html (H := insertion_order) [File.mk "10023-8.txt" 10023]) =
    Ok (["http:/aleph.pglaf.org/1/0/0/2/10023/10023-h.zip";
         "http:/aleph.pglaf.org/1/0/0/2/10023/10023-h.htm";
         "http:/aleph.pglaf.org/1/0/0/2/10023/10023-h.html";
         "http:/aleph.pglaf.org/cache/epub/10023/pg10023.html.utf8"] ++
        ((λ i, "http:/aleph.pglaf.org/etext/" +:+ i +:+ "/10023-8.txt") <$>
         ["90"; "91"; "92"; "93"; "94"; "95"; "96"; "97"; "98"; "99";
          "00"; "01"; "02"; "03"; "04"; "05"])).
Proof.
  split_and!; [reflexivity | | reflexivity].
  intros [e He]. vm_compute in He. discriminate He.
Qed.

(** ** The resolver *)

Lemma get_or_none_Some db k : is_Some (Url.get_or_none db k) ↔ k ∈ db.
Proof.
  unfold Url.get_or_none. rewrite list_elem_of_In. split.
  - intros [x Hx]. apply find_some in Hx as [Hin Heq].
    apply String.eqb_eq in Heq. by subst.
  - intros Hin. destruct (List.find (String.eqb k) db) eqn:E; [by eexists|].
    eapply find_none in E; [|exact Hin]. by rewrite String.eqb_refl in E.
Qed.

Section ResolverFacts.

Context `{SetOrder}.
Variable url_path : PurePath → Exc string.

Lemma in_db_Ok db u b :
  in_db url_path db u = Ok b →
  b = hit url_path db u ∧ ∃ p, url_path u = Ok p.
Proof.
  unfold in_db, hit. destruct (url_path u) as [p|e]; [|discriminate].
  intros <-%Ok_inj. split; [|by eexists].
  apply bool_decide_ext, get_or_none_Some.
Qed.

Lemma filtre_Ok db l kept :
  filtre url_path db l = Ok kept →
  kept = List.filter (hit url_path db) l ∧
  Forall (λ u, ∃ p, url_path u = Ok p) l.
Proof.
  revert kept. induction l as [|u l IH]; intros kept; simpl.
  - intros <-%Ok_inj. by split.
  - destruct (in_db url_path db u) as [b|e] eqn:Eb; [|discriminate].
    destruct (filtre url_path db l) as [k|e] eqn:Ek; [|discriminate].
    intros <-%Ok_inj. apply in_db_Ok in Eb as [-> Hp].
    destruct (IH k eq_refl) as [-> Hall]. by split; [|constructor].
Qed.

Lemma hit_confirmed db u :
  hit url_path db u = true ↔ ∃ p, url_path u = Ok p ∧ Str.slice_from 1 p ∈ db.
Proof.
  unfold hit. destruct (url_path u) as [p|e]; split.
  - intros Hb%bool_decide_eq_true. eauto.
  - intros (q & [= <-] & Hq). by apply bool_decide_eq_true.
  - discriminate.
  - by intros (q & ? & _).
Qed.

(** The index matters through its contents only. *)
Lemma in_db_ext db1 db2 u :
  (∀ k, k ∈ db1 ↔ k ∈ db2) → in_db url_path db1 u = in_db url_path db2 u.
Proof.
  intros Hdb. unfold in_db. destruct (url_path u) as [p|e]; [|done]. simpl.
  f_equal. apply bool_decide_ext. by rewrite !get_or_none_Some.
Qed.

Lemma filtre_ext db1 db2 l :
  (∀ k, k ∈ db1 ↔ k ∈ db2) → filtre url_path db1 l = filtre url_path db2 l.
Proof.
  intros Hdb. induction l as [|u l IH]; simpl; [done|].
  by rewrite (in_db_ext db1 db2 u Hdb), IH.
Qed.

Lemma build_urls_loop_ext db1 db2 ml files :
  (∀ k, k ∈ db1 ↔ k ∈ db2) →
  build_urls_loop url_path db1 ml files = build_urls_loop url_path db2 ml files.
Proof.
  intros Hdb. revert files. induction ml as [|[i g] ml IH]; intros files; simpl.
  - done.
  - destruct (files !! i) as [e|]; [|apply IH].
    destruct (generate g e) as [cands|err]; [|done]. simpl.
    rewrite (filtre_ext db1 db2 cands Hdb).
    destruct (filtre url_path db2 cands) as [kept|err]; [|done]. simpl.
    apply IH.
Qed.

(** The loop leaves the keys it does not visit alone. *)
Lemma build_urls_loop_other db ml files m i :
  build_urls_loop url_path db ml files = Ok m →
  i ∉ ml.*1 → m !! i = files !! i.
Proof.
  revert files. induction ml as [|[j g] ml IH]; intros files; simpl.
  - by intros <-%Ok_inj.
  - intros Hrun Hi. apply not_elem_of_cons in Hi as [Hij Hi].
    destruct (files !! j) as [e|]; [|by apply IH].
    destruct (generate g e) as [cands|err]; [|discriminate]. simpl in Hrun.
    destruct (filtre url_path db cands) as [kept|err]; [|discriminate].
    simpl in Hrun. rewrite (IH _ Hrun Hi). by apply lookup_insert_ne.
Qed.

(** A key it visits ends up with the confirmed candidates of its
    generator, in the order of the candidates. *)
Lemma build_urls_loop_visited db ml files m i g e :
  NoDup ml.*1 →
  build_urls_loop url_path db ml files = Ok m →
  (i, g) ∈ ml → files !! i = Some e →
  ∃ cands, generate g e = Ok cands ∧
           Forall (λ u, ∃ p, url_path u = Ok p) cands ∧
           m !! i = Some (Urls (List.filter (hit url_path db) cands)).
Proof.
  revert files. induction ml as [|[j g'] ml IH]; intros files Hnd Hrun Hi He.
  - by apply elem_of_nil in Hi.
  - simpl in Hnd. apply NoDup_cons in Hnd as [Hj Hnd]. simpl in Hrun.
    apply elem_of_cons in Hi as [[= <- <-]|Hi].
    + rewrite He in Hrun.
      destruct (generate g e) as [cands|err]; [|discriminate]. simpl in Hrun.
      destruct (filtre url_path db cands) as [kept|err] eqn:Ek; [|discriminate].
      simpl in Hrun. apply filtre_Ok in Ek as [-> Hall].
      exists cands. split_and!; [done..|].
      rewrite (build_urls_loop_other _ _ _ _ i Hrun Hj).
      apply lookup_insert_eq.
    + assert (i ≠ j) as Hij.
      { intros ->. apply Hj. apply list_elem_of_fmap. by exists (j, g). }
      destruct (files !! j) as [e'|]; [|by eapply IH].
      destruct (generate g' e') as [cands|err]; [|discriminate]. simpl in Hrun.
      destruct (filtre url_path db cands) as [kept|err]; [|discriminate].
      simpl in Hrun. eapply IH; [done..|].
      by rewrite lookup_insert_ne.
Qed.

(** A key that is absent stays absent. *)
Lemma build_urls_loop_absent db ml files m i :
  build_urls_loop url_path db ml files = Ok m →
  files !! i = None → m !! i = None.
Proof.
  revert files. induction ml as [|[j g] ml IH]; intros files; simpl.
  - by intros <-%Ok_inj.
  - intros Hrun Hi. destruct (files !! j) as [e|] eqn:Ej; [|by eapply IH].
    destruct (generate g e) as [cands|err]; [|discriminate]. simpl in Hrun.
    destruct (filtre url_path db cands) as [kept|err]; [|discriminate].
    simpl in Hrun. eapply IH; [done|].
    rewrite lookup_insert_ne; [done|]. congruence.
Qed.

Lemma mapping_NoDup : NoDup (mapping.*1).
Proof. apply (bool_decide_unpack _). vm_compute. exact I. Qed.

(** An error of a generator is not caught: it leaves [build_urls]. *)
Lemma build_urls_propagates db files i g e :
  (i, g) ∈ mapping → files !! i = Some e →
  raises (generate g e) → raises (build_urls url_path db files).
Proof.
  intros Hi He [err Herr].
  destruct (build_urls url_path db files) as [m|err'] eqn:Hrun; [|by eexists].
  destruct (build_urls_loop_visited db mapping files m i g e mapping_NoDup
              Hrun Hi He) as (cands & Hg & _).
  congruence.
Qed.


(** The index matters to the resolver through its contents alone. *)
Lemma get_urls_index_contents
    (pattern_format : string → N → Exc string)
    (formats : list BookFormat.t) (book : N) (db1 db2 : list string) :
  (∀ k, k ∈ db1 ↔ k ∈ db2) →
  get_urls url_path db1 pattern_format formats book =
  get_urls url_path db2 pattern_format formats book.
Proof.
  intros Hdb. unfold get_urls.
  destruct (available_formats pattern_format book _) as [fs|err]; [|done].
  simpl. by apply build_urls_loop_ext.
Qed.

End ResolverFacts.

(** ** What the call of [urlparse] does *)

Section Urlparse.

Context `{SetOrder}.

Lemma list_set_cons x l : list_set (x :: l) ≠ [].
Proof.
  intros E. assert (x ∈ list_set (x :: l)) as Hx
    by (apply list_set_elem, elem_of_cons; by left).
  rewrite E in Hx. by apply elem_of_nil in Hx.
Qed.

(** Every generator finds a candidate for a book with a known file. *)
Lemma generators_nonempty i g f fs :
  (i, g) ∈ mapping → ∃ u us, g (f :: fs) = Ok (u :: us).
Proof.
  intros Hg. repeat apply elem_of_cons in Hg as [[= _ ->]|Hg].
  - rewrite build_epub_eq. eauto.
  - rewrite build_pdf_eq.
    match goal with |- context [list_set ?l] =>
      destruct (list_set l) as [|u us] eqn:E end; [|eauto].
    exfalso. revert E.
    destruct (List.filter _ _); simpl; apply list_set_cons.
  - destruct (last_is_Some f fs) as (fl & Hl & _).
    rewrite (build_html_eq f fs fl Hl).
    match goal with |- context [list_set ?l] =>
      destruct (list_set l) as [|u us] eqn:E end; [|eauto].
    exfalso. revert E.
    destruct (_ && _); simpl; apply list_set_cons.
  - by apply elem_of_nil in Hg.
Qed.

Lemma build_urls_loop_urlparse db ml (files : gmap string entry) :
  ml ⊆ mapping →
  (∀ i e, files !! i = Some e → ∃ f fs, e = Known (f :: fs)) →
  (∃ i, i ∈ ml.*1 ∧ is_Some (files !! i)) →
  build_urls_loop urlparse_path db ml files = Raise AttributeError.
Proof.
  intros Hsub Hknown. induction ml as [|[j g] ml IH]; intros (i & Hi & Hsome).
  - by apply elem_of_nil in Hi.
  - simpl. destruct (files !! j) as [e|] eqn:Ej.
    + destruct (Hknown j e Ej) as (f & fs & ->). simpl.
      destruct (generators_nonempty j g f fs) as (u & us & ->);
        [apply Hsub; by left|]. reflexivity.
    + apply IH.
      * intros x Hx. apply Hsub. by right.
      * exists i. split; [|done]. simpl in Hi.
        apply elem_of_cons in Hi as [->|Hi]; [|done].
        rewrite Ej in Hsome. by destruct Hsome.
Qed.

(** On this code the resolver returns for no book with a known file of a
    supported format: the first candidate it looks up is a path object. *)
Lemma build_urls_urlparse_raises db (known : gmap string (list File.t)) :
  (∀ i fs, known !! i = Some fs → fs ≠ []) →
  (∃ i, i ∈ mapping.*1 ∧ is_Some (known !! i)) →
  build_urls urlparse_path db (Known <$> known) = Raise AttributeError.
Proof.
  intros Hne (i & Hi & Hsome). apply build_urls_loop_urlparse; [done| |].
  - intros j e. rewrite lookup_fmap.
    destruct (known !! j) as [[|f fs]|] eqn:Ej; simpl; try discriminate.
    + by destruct (Hne j [] Ej).
    + intros [= <-]. eauto.
  - exists i. split; [done|]. rewrite lookup_fmap.
    destruct Hsome as [fs ->]. by eexists.
Qed.

End Urlparse.

(** The lists that [sort_by_mime_type] builds are never empty. *)
Lemma sort_by_mime_type_nonempty files i l :
  sort_by_mime_type files !! i = Some l → l ≠ [].
Proof.
  unfold sort_by_mime_type.
  assert (∀ f (mime : gmap string (list File.t)),
            (∀ i l, mime !! i = Some l → l ≠ []) →
            ∀ i l,
              fold_left
                (λ mime kv,
                   let '(k, v) := kv in
                   <[info_mime v := default [] (mime !! info_mime v)
                                    ++ [File.mk k (info_id v)]]> mime)
                f mime !! i = Some l → l ≠ []) as Hinner.
  { induction f as [|[k v] f IH]; intros mime Hm; simpl; [done|].
    apply IH. intros j l'. destruct (decide (info_mime v = j)) as [<-|Hj].
    - rewrite lookup_insert_eq. intros [= <-]. by destruct (default [] _).
    - rewrite lookup_insert_ne by done. apply Hm. }
  assert (∀ (mime : gmap string (list File.t)),
            (∀ i l, mime !! i = Some l → l ≠ []) →
            ∀ i l,
              fold_left
                (λ mime f,
                   fold_left
                     (λ mime kv,
                        let '(k, v) := kv in
                        <[info_mime v := default [] (mime !! info_mime v)
                                         ++ [File.mk k (info_id v)]]> mime)
                     f mime)
                files mime !! i = Some l → l ≠ []) as Houter.
  { induction files as [|f files IH]; intros mime Hm; simpl; [done|].
    apply IH. by apply Hinner. }
  revert i l. apply Houter. intros j l'. by rewrite lookup_empty.
Qed.

Lemma build_urls_loop_no_key `{SetOrder} url_path db ml
    (files : gmap string entry) :
  (∀ i, i ∈ ml.*1 → files !! i = None) →
  build_urls_loop url_path db ml files = Ok files.
Proof.
  induction ml as [|[j g] ml IH]; intros Hno; simpl; [done|].
  rewrite (Hno j) by (simpl; by left). apply IH.
  intros i Hi. apply Hno. simpl. by right.
Qed.

(** On this code the answer of the resolver is the same under every
    enumeration of the sets: nothing is returned in an order of its own. *)
Lemma build_urls_urlparse_any_order (o1 o2 : SetOrder) db
    (known : gmap string (list File.t)) :
  (∀ i fs, known !! i = Some fs → fs ≠ []) →
  @build_urls o1 urlparse_path db (Known <$> known) =
  @build_urls o2 urlparse_path db (Known <$> known).
Proof.
  intros Hne.
  destruct (decide (Exists (λ i, is_Some (known !! i))
                      ["application/epub+zip"; "application/pdf"; "text/html"]))
    as [Hex|Hno].
  - apply Exists_exists in Hex as (i & Hi & Hsome).
    rewrite (build_urls_urlparse_raises (H := o1) db known Hne)
      by (exists i; split; [exact Hi | exact Hsome]).
    by rewrite (build_urls_urlparse_raises (H := o2) db known Hne)
      by (exists i; split; [exact Hi | exact Hsome]).
  - unfold build_urls. rewrite !build_urls_loop_no_key; [done|..];
      intros i Hi; rewrite lookup_fmap;
      (destruct (known !! i) eqn:Ei; [|done]);
      exfalso; apply Hno, Exists_exists; exists i; (split; [exact Hi|]);
      rewrite Ei; by eexists.
Qed.

Lemma get_urls_urlparse_any_order (o1 o2 : SetOrder) db pattern_format
    formats book :
  @get_urls o1 urlparse_path db pattern_format formats book =
  @get_urls o2 urlparse_path db pattern_format formats book.
Proof.
  unfold get_urls.
  destruct (available_formats pattern_format book _) as [fs|err]; [|done].
  simpl. apply build_urls_urlparse_any_order.
  intros i l. apply sort_by_mime_type_nonempty.
Qed.

(** C9. Two calls of the resolver for a book, on indexes with the same
    contents (the same rows, in any order and with any repetitions), give
    the same output, the order of every list of URLs included: they return
    the same mapping or raise the same error. This holds for every
    behaviour of [urlparse] under one enumeration of the sets, which is what
    one interpreter process has; and on this code, where [urlparse] is
    handed path objects, it holds under any two enumerations. The exclusion
    list is no input of the resolver. *)
Theorem get_urls_deterministic
    (pattern_format : string → N → Exc string)
    (formats : list BookFormat.t) (book : N) (db1 db2 : list string) :
  (∀ k, k ∈ db1 ↔ k ∈ db2) →
  (∀ (o : SetOrder) (url_path : PurePath → Exc string),
     @get_urls o url_path db1 pattern_format formats book =
     @get_urls o url_path db2 pattern_format formats book) ∧
  (∀ o1 o2 : SetOrder,
     @get_urls o1 urlparse_path db1 pattern_format formats book =
     @get_urls o2 urlparse_path db2 pattern_format formats book).
Proof.
  intros Hdb. split.
  - intros o url_path. by apply get_urls_index_contents.
  - intros o1 o2.
    rewrite (get_urls_urlparse_any_order o1 o2).
    by apply get_urls_index_contents.
Qed.

Lemma get_urls_deterministic_witness :
  let formats :=
    [BookFormat.mk 10023 "application/epub+zip" "pg10023.epub";
     BookFormat.mk 10023 "text/html; charset=utf-8" "10023-h.zip";
     BookFormat.mk 7 "application/pdf" "7.pdf"] in
  let db1 :=
    ["GUTINDEX.ALL"; "aleph.pglaf.org/cache/epub/10023/pg10023.epub"] in
  let db2 :=
    ["aleph.pglaf.org/cache/epub/10023/pg10023.epub"; "GUTINDEX.ALL";
     "aleph.pglaf.org/cache/epub/10023/pg10023.epub"] in
  get_urls (H := insertion_order) path_of_str db1 format_plain formats 10023 =
  get_urls (H := insertion_order) path_of_str db2 format_plain formats 10023 ∧
  get_urls (H := insertion_order) urlparse_path db1 format_plain formats 10023 =
  get_urls (H := reverse_order) urlparse_path db2 format_plain formats 10023.
Proof.
  intros formats db1 db2.
  assert (∀ k, k ∈ db1 ↔ k ∈ db2) as Hdb.
  { intros k. unfold db1, db2. rewrite !elem_of_cons, elem_of_nil. tauto. }
  destruct (get_urls_deterministic format_plain formats 10023 db1 db2 Hdb)
    as [Hone Hany].
  split.
  - exact (Hone insertion_order path_of_str).
  - exact (Hany insertion_order reverse_order).
Defined.

(** ** Substrings *)

Lemma startswith_app p t sub :
  Str.startswith p sub = true → Str.startswith (p +:+ t) sub = true.
Proof.
  revert p. induction sub as [|a sub IH]; intros p; [done|].
  destruct p as [|b p]; [discriminate|].
  change (String b p +:+ t) with (String b (p +:+ t)). cbn [Str.startswith].
  intros [-> Hp]%andb_true_iff. by rewrite (IH p Hp).
Qed.

Lemma contains_app p t sub :
  Str.contains p sub = true → Str.contains (p +:+ t) sub = true.
Proof.
  induction p as [|b p IH].
  - cbn [Str.contains]. rewrite orb_false_r. destruct sub; [|discriminate].
    intros _. destruct t; reflexivity.
  - change (String b p +:+ t) with (String b (p +:+ t)). cbn [Str.contains].
    intros [Hs|Hc]%orb_true_iff.
    + pose proof (startswith_app (String b p) t sub Hs) as Hs'.
      change (String b p +:+ t) with (String b (p +:+ t)) in Hs'.
      by rewrite Hs'.
    + rewrite (IH Hc). apply orb_true_r.
Qed.

Lemma contains_cons c s sub :
  Str.contains s sub = true → Str.contains (String c s) sub = true.
Proof. intros Hs. cbn [Str.contains]. rewrite Hs. apply orb_true_r. Qed.

Lemma contains_slice_from n s sub :
  Str.contains (Str.slice_from n s) sub = true → Str.contains s sub = true.
Proof.
  revert s. induction n as [|n IH]; intros [|c s]; simpl; try done.
  intros Hs. apply contains_cons, IH, Hs.
Qed.

Lemma contains_lstrip s sub :
  Str.contains (Str.lstrip s) sub = true → Str.contains s sub = true.
Proof.
  induction s as [|c s IH]; [done|]. cbn [Str.lstrip].
  destruct (Str.isspace c); [|done]. intros Hs. apply contains_cons, IH, Hs.
Qed.

Lemma rstrip_prefix s : ∃ t, s = Str.rstrip s +:+ t.
Proof.
  induction s as [|c s [t IH]]; [by exists ""|]. cbn [Str.rstrip].
  destruct (Str.rstrip s) as [|b r].
  - destruct (Str.isspace c); [by exists (String c s)|].
    exists s. reflexivity.
  - exists t. rewrite IH at 1. reflexivity.
Qed.

Lemma contains_rstrip s sub :
  Str.contains (Str.rstrip s) sub = true → Str.contains s sub = true.
Proof.
  intros Hs. destruct (rstrip_prefix s) as [t Ht]. rewrite Ht.
  by apply contains_app.
Qed.

(** What is left of a line after slicing and stripping contains no more
    than the line. *)
Lemma contains_strip_slice n line sub :
  Str.contains line sub = false →
  Str.contains (Str.strip (Str.slice_from n line)) sub = false.
Proof.
  intros Hl. destruct (Str.contains (Str.strip _) sub) eqn:E; [|done].
  apply contains_rstrip, contains_lstrip, contains_slice_from in E. congruence.
Qed.

Lemma find_from_spec s sub i :
  (Str.contains s sub = true ∧ i ≤ Str.find_from s sub i) ∨
  (Str.contains s sub = false ∧ Str.find_from s sub i = -1).
Proof.
  revert i. induction s as [|c s IH]; intros i; cbn [Str.contains Str.find_from].
  - destruct (Str.startswith "" sub); simpl; [left|right]; split; (done || lia).
  - destruct (Str.startswith (String c s) sub); simpl.
    + left. split; [done|lia].
    + destruct (IH (i + 1)) as [[-> ?]|[-> ?]]; [left|right]; split;
        (done || lia).
Qed.

Lemma find_contains s sub : 0 ≤ Str.find s sub ↔ Str.contains s sub = true.
Proof.
  unfold Str.find. destruct (find_from_spec s sub 0) as [[-> ?]|[-> ->]].
  - done.
  - split; [lia|discriminate].
Qed.

Lemma find_missing s sub : Str.contains s sub = false → Str.find s sub = -1.
Proof.
  unfold Str.find. intros Hs.
  destruct (find_from_spec s sub 0) as [[? ?]|[_ ->]]; [congruence|done].
Qed.

(** ** Ingestion *)

Lemma find_start_marker lines cur :
  (∃ line, line ∈ lines ∧ Str.contains line "GUTINDEX" = true) →
  ∃ idx, find_start lines cur = Some idx ∧ 0 ≤ idx.
Proof.
  revert cur. induction lines as [|l lines IH]; intros cur (line & Hin & Hc).
  - by apply elem_of_nil in Hin.
  - cbn [find_start]. destruct (Z.leb_spec 0 (Str.find l "GUTINDEX")).
    + eauto.
    + apply IH. exists line. split; [|done].
      apply elem_of_cons in Hin as [->|Hin]; [|done].
      apply find_contains in Hc. lia.
Qed.

Lemma find_start_no_marker l lines cur :
  (∀ line, line ∈ l :: lines → Str.contains line "GUTINDEX" = false) →
  find_start (l :: lines) cur = Some (-1).
Proof.
  revert l cur. induction lines as [|l' lines IH]; intros l cur Hno.
  - cbn [find_start].
    by rewrite (find_missing l "GUTINDEX") by (apply Hno; by left).
  - change (find_start (l :: l' :: lines) cur)
      with (if 0 <=? Str.find l "GUTINDEX" then Some (Str.find l "GUTINDEX")
            else find_start (l' :: lines) (Some (Str.find l "GUTINDEX"))).
    rewrite (find_missing l "GUTINDEX") by (apply Hno; by left).
    change (0 <=? -1) with false. cbv iota.
    apply IH. intros line Hin. apply Hno. by right.
Qed.

(** A row of the table after the second loop was there before it or comes
    from a line that passed the two tests. *)
Lemma ingest_rows books idx lines st e :
  e ∈ (fold_left (ingest_line books idx) lines st).1 →
  e ∈ st.1 ∨
  ∃ line, line ∈ lines ∧ Str.startswith line "d" = false ∧
          Str.contains line "/old/" = false ∧
          e = Str.strip (Str.slice_from (Z.to_nat idx) line).
Proof.
  revert st. induction lines as [|l lines IH]; intros st; simpl; [by left|].
  intros [He|(line & Hin & ?)]%IH.
  - unfold ingest_line in He.
    destruct (Str.startswith l "d") eqn:Ed; [by left|].
    unfold py_in, str_PyIn in He.
    destruct (Str.contains l "/old/") eqn:Eo; [by left|].
    destruct (_ && _); [by left|]. simpl in He. unfold Url.create in He.
    apply elem_of_app in He as [He|He]; [by left|].
    apply list_elem_of_singleton in He. right. exists l.
    split_and!; [by left|done..].
  - right. exists line. split; [by right|done].
Qed.

(** C7, as the code has it. After ingestion every row of the index comes
    from a line of the listing that does not start with [d] and does not
    contain [/old/]: it is that line from the column of the marker on,
    stripped. No row contains [/old/]. *)
Theorem index_rows
    (force : bool) (books : list N) (cached : option (list string))
    (rsync tbl tbl' : list string) (c : counts) (e : string) :
  setup_urls force books cached rsync tbl = Ok (tbl', c) → e ∈ tbl' →
  Str.contains e "/old/" = false ∧
  ∃ line start,
    line ∈ listing force cached rsync ∧
    find_start (listing force cached rsync) None = Some start ∧
    Str.startswith line "d" = false ∧
    Str.contains line "/old/" = false ∧
    e = Str.strip (Str.slice_from (Z.to_nat start) line).
Proof.
  unfold setup_urls. intros Hrun He.
  destruct (find_start _ None) as [start|] eqn:Es; [|discriminate].
  destruct (start =? -1); [discriminate|].
  apply Ok_inj in Hrun.
  apply (f_equal fst) in Hrun. simpl in Hrun. subst tbl'.
  apply ingest_rows in He as [He|(line & Hin & Hd & Ho & ->)].
  - by apply elem_of_nil in He.
  - split; [by apply contains_strip_slice|]. by exists line, start.
Qed.

Lemma index_rows_witness :
  Str.contains "cache/epub/10023/pg10023.epub" "/old/" = false ∧
  ∃ line start,
    line ∈ listing true None sample_listing ∧
    find_start (listing true None sample_listing) None = Some start ∧
    Str.startswith line "d" = false ∧
    Str.contains line "/old/" = false ∧
    "cache/epub/10023/pg10023.epub" =
      Str.strip (Str.slice_from (Z.to_nat start) line).
Proof.
  apply (index_rows true [] None sample_listing ["stale"]
           ["GUTINDEX.ALL"; "old/README"; "cache/epub/10023/pg10023.epub"]
           (mk_counts 1 1 3 5)).
  - vm_compute. reflexivity.
  - do 2 (apply elem_of_cons; right). apply elem_of_cons; left. reflexivity.
Defined.

(** C7 fails as stated: the file [old/README] at the top of the mirror is
    in no [/old/] below another directory, its line passes both tests, and a
    membership test for [old/README] hits. *)
Lemma top_level_old_indexed :
  setup_urls true [] None sample_listing [] =
    Ok (["GUTINDEX.ALL"; "old/README"; "cache/epub/10023/pg10023.epub"],
        mk_counts 1 1 3 5) ∧
  Url.get_or_none
    ["GUTINDEX.ALL"; "old/README"; "cache/epub/10023/pg10023.epub"]
    "old/README" = Some "old/README" ∧
  Str.startswith "old/README" "old/" = true.
Proof. split_and!; vm_compute; reflexivity. Qed.

(** C8: where the code leaves the claim. On a listing with no line at all
    (what a failed rsync leaves behind) the first loop never binds
    [start_rel_path_idx], and the test that follows it raises
    [UnboundLocalError] in place of the [ValueError] with its message. *)
Theorem setup_urls_empty_listing
    (force : bool) (books : list N) (tbl : list string) :
  setup_urls force books None [] tbl =
    Raise (UnboundLocalError "start_rel_path_idx") ∧
  setup_urls false books (Some []) [] tbl =
    Raise (UnboundLocalError "start_rel_path_idx").
Proof. split; reflexivity. Qed.

(** On a listing with at least one line and no marker the error is the
    [ValueError]; the table is not touched. *)
Lemma setup_urls_no_marker force books cached rsync tbl :
  listing force cached rsync ≠ [] →
  (∀ line, line ∈ listing force cached rsync →
           Str.contains line "GUTINDEX" = false) →
  setup_urls force books cached rsync tbl =
  Raise (ValueError "Unable to find relative path start in urls file").
Proof.
  unfold setup_urls. intros Hne Hno.
  destruct (listing force cached rsync) as [|l lines]; [done|].
  by rewrite (find_start_no_marker l lines None Hno).
Qed.

(** With the marker somewhere in the listing, ingestion goes through. *)
Lemma setup_urls_marker force books cached rsync tbl :
  (∃ line, line ∈ listing force cached rsync ∧
           Str.contains line "GUTINDEX" = true) →
  ∃ r, setup_urls force books cached rsync tbl = Ok r.
Proof.
  unfold setup_urls. intros Hm.
  destruct (find_start_marker _ None Hm) as (idx & -> & Hidx).
  destruct (Z.eqb_spec idx (-1)); [lia|]. by eexists.
Qed.

(** Ingesting the same listing again gives the same table. *)
Lemma setup_urls_idempotent force books cached rsync tbl tbl' c :
  setup_urls force books cached rsync tbl = Ok (tbl', c) →
  setup_urls force books cached rsync tbl' = Ok (tbl', c).
Proof.
  unfold setup_urls. destruct (find_start _ None) as [start|]; [|done].
  by destruct (start =? -1).
Qed.

(** * Further properties of [urls.py] *)

(** ** [index_of_substring] *)

Lemma index_of_substring_from_spec {A} `{PyIn A}
    (lst : list A) (substrings : list string) (k : Z) :
  (index_of_substring_from lst substrings k = -1 ∧
   ∀ s, s ∈ lst → existsb (λ sub, py_in sub s) substrings = false) ∨
  (∃ i s, index_of_substring_from lst substrings k = k + Z.of_nat i ∧
          lst !! i = Some s ∧
          existsb (λ sub, py_in sub s) substrings = true ∧
          ∀ j t, (j < i)%nat → lst !! j = Some t →
                 existsb (λ sub, py_in sub t) substrings = false).
Proof.
  revert k. induction lst as [|x lst IH]; intros k; cbn [index_of_substring_from].
  - left. split; [done|]. intros s Hs. by apply elem_of_nil in Hs.
  - destruct (existsb (λ sub, py_in sub x) substrings) eqn:Ex.
    + right. exists 0%nat, x. split_and!; [lia|done|done|]. intros j t Hj. lia.
    + destruct (IH (k + 1)) as [[Hr Hall]|(i & s & Hr & Hs & Hhit & Hbefore)].
      * left. split; [done|]. intros s [->|Hs]%elem_of_cons; auto.
      * right. exists (S i), s. split_and!; [lia|done|done|].
        intros [|j] t Hj Ht; simpl in Ht; [by injection Ht as <-|].
        eapply Hbefore; [|done]. lia.
Qed.

(** X1. [index_of_substring] answers with the position of the first element
    in which one of the substrings occurs: the element at that position has
    one, no element before it has one, and the answer is [-1] exactly when
    no element has one. *)
Theorem index_of_substring_first {A} `{PyIn A}
    (lst : list A) (substrings : list string) :
  let r := index_of_substring lst substrings in
  (r = -1 ∧
   ∀ s, s ∈ lst → existsb (λ sub, py_in sub s) substrings = false) ∨
  (∃ i s, r = Z.of_nat i ∧ (i < length lst)%nat ∧ lst !! i = Some s ∧
          existsb (λ sub, py_in sub s) substrings = true ∧
          ∀ j t, (j < i)%nat → lst !! j = Some t →
                 existsb (λ sub, py_in sub t) substrings = false).
Proof.
  intros r. subst r. unfold index_of_substring.
  destruct (index_of_substring_from_spec lst substrings 0)
    as [?|(i & s & Hr & Hs & Hhit & Hbefore)]; [by left|].
  right. exists i, s. split_and!; [lia| |done..].
  by eapply lookup_lt_Some.
Qed.

(** ** The pdf and html rules *)

Lemma plain_str_sfx n sfx : no_sep sfx = true → plain (str n +:+ sfx).
Proof.
  intros Hs. pose proof (str_digits n) as Hd. pose proof (str_nonempty n) as Hn.
  split_and!.
  - by rewrite no_sep_app, Hs, all_digits_no_sep.
  - destruct (str n); [done|discriminate].
  - destruct (str n) as [|c s]; [done|].
    apply andb_true_iff in Hd as [Hc _]. intros [= -> _]. discriminate Hc.
Qed.

Lemma base_url_head n :
  ∃ c rest, parts (UrlBuilder.base_url (str n) n) = String c EmptyString :: rest.
Proof.
  destruct (decide (10 < n)%N) as [Hn|Hn].
  - rewrite (base_url_above n Hn). simpl.
    pose proof (str_length_ge2 n ltac:(lia)) as Hlen.
    destruct (str n) as [|a [|b s]]; simpl in Hlen; [lia..|].
    change (Str.drop_last (String a (String b s)))
      with (String a (Str.drop_last (String b s))).
    simpl. eauto.
  - rewrite base_url_below by lia. simpl. eauto.
Qed.

(** The four candidates of the pdf rule with fixed names are four. *)
Lemma pdf_fixed_NoDup n :
  NoDup [cache_dir n </> (str n +:+ "-pdf.pdf");
         cache_dir n </> (str n +:+ ".pdf");
         cache_dir n </> ("pg" +:+ str n +:+ ".pdf");
         files_dir n </> (str n +:+ "-pdf.pdf")].
Proof.
  rewrite !truediv_plain by (apply plain_str_sfx || apply plain_pg; done).
  destruct (base_url_head n) as (c & rest & Hb).
  pose proof (str_digits n) as Hd. pose proof (str_nonempty n) as Hn.
  unfold cache_dir, files_dir. rewrite Hb. simpl.
  repeat apply NoDup_cons_2; try apply NoDup_nil_2;
    rewrite ?elem_of_cons, ?elem_of_nil; intros Hin;
    repeat (destruct Hin as [Hin|Hin]); try done; try discriminate Hin.
  - injection Hin as Hin. apply String.app_inj in Hin. discriminate Hin.
  - injection Hin as Hin. destruct (str n) as [|a s]; [done|].
    apply andb_true_iff in Hd as [Ha _]. injection Hin as -> _.
    discriminate Ha.
  - injection Hin as Hin. destruct (str n) as [|a s]; [done|].
    apply andb_true_iff in Hd as [Ha _]. injection Hin as -> _.
    discriminate Ha.
Qed.

Section Rules.

Context `{SetOrder}.

(** X2. The pdf rule. For a book with a known file the list has no
    duplicate and at least four candidates, and it holds exactly: for every
    known name without [images] in it, that name in the cache directory of
    the book; and the four fixed names. *)
Theorem build_pdf_candidates (f : File.t) (fs : list File.t)
    (urls : list PurePath) :
  let n := File.id f in
  build_pdf (f :: fs) = Ok urls →
  NoDup urls ∧ (4 ≤ length urls)%nat ∧
  ∀ u, u ∈ urls ↔
    (∃ x, x ∈ f :: fs ∧ py_in "images" (File.name x) = false ∧
          u = cache_dir n </> File.name x) ∨
    u ∈ [cache_dir n </> (str n +:+ "-pdf.pdf");
         cache_dir n </> (str n +:+ ".pdf");
         cache_dir n </> ("pg" +:+ str n +:+ ".pdf");
         files_dir n </> (str n +:+ "-pdf.pdf")].
Proof.
  intros n. rewrite build_pdf_eq. fold n. intros <-%Ok_inj.
  assert (∀ u, u ∈ list_set
            (((λ i, cache_dir n </> File.name i) <$>
              List.filter (λ i, negb (py_in "images" (File.name i))) (f :: fs)) ++
             [cache_dir n </> (str n +:+ "-pdf.pdf");
              cache_dir n </> (str n +:+ ".pdf");
              cache_dir n </> ("pg" +:+ str n +:+ ".pdf");
              files_dir n </> (str n +:+ "-pdf.pdf")]) ↔
          (∃ x, x ∈ f :: fs ∧ py_in "images" (File.name x) = false ∧
                u = cache_dir n </> File.name x) ∨
          u ∈ [cache_dir n </> (str n +:+ "-pdf.pdf");
               cache_dir n </> (str n +:+ ".pdf");
               cache_dir n </> ("pg" +:+ str n +:+ ".pdf");
               files_dir n </> (str n +:+ "-pdf.pdf")]) as Hiff.
  { intros u. rewrite list_set_elem, elem_of_app, list_elem_of_fmap.
    apply or_iff_compat_r. split.
    - intros (x & -> & Hx). exists x.
      apply list_elem_of_In in Hx.
      apply (proj1 (filter_In (λ i, negb (py_in "images" (File.name i)))
                      x (f :: fs))) in Hx as [Hx Hi].
      split_and!; [by apply list_elem_of_In|by apply negb_true_iff|done].
    - intros (x & Hx & Hi & ->). exists x. split; [done|].
      apply list_elem_of_In.
      apply (proj2 (filter_In (λ i, negb (py_in "images" (File.name i)))
                      x (f :: fs))).
      split; [by apply list_elem_of_In|by apply negb_true_iff]. }
  split_and!; [apply list_set_NoDup| |exact Hiff].
  change 4%nat with (length [cache_dir n </> (str n +:+ "-pdf.pdf");
                             cache_dir n </> (str n +:+ ".pdf");
                             cache_dir n </> ("pg" +:+ str n +:+ ".pdf");
                             files_dir n </> (str n +:+ "-pdf.pdf")]).
  apply submseteq_length, NoDup_submseteq; [apply pdf_fixed_NoDup|].
  intros u Hu. apply Hiff. by right.
Qed.

(** X3. The html rule. For a book with a known file the list has no
    duplicate and holds exactly: the four fixed names; for each of the
    sixteen year labels the name of the last known file below that label;
    and, when one known name is [-h.zip] and none is [-h.html], every known
    name in the directory of the book. *)
Theorem build_html_candidates (f : File.t) (fs : list File.t) (fl : File.t)
    (urls : list PurePath) :
  let n := File.id f in
  let file_names := File.name <$> f :: fs in
  last (f :: fs) = Some fl →
  build_html (f :: fs) = Ok urls →
  NoDup urls ∧
  ∀ u, u ∈ urls ↔
    ((("-h.html" ∉ file_names) ∧ ("-h.zip" ∈ file_names)) ∧
     ∃ x, x ∈ f :: fs ∧ u = files_dir n </> File.name x) ∨
    u ∈ [files_dir n </> (str n +:+ "-h.zip");
         files_dir n </> (str n +:+ "-h.htm");
         files_dir n </> (str n +:+ "-h.html");
         cache_dir n </> ("pg" +:+ str n +:+ ".html.utf8")] ∨
    ∃ i, i ∈ fmt_02d <$> etext_nums ∧ u = etext_dir </> i </> File.name fl.
Proof.
  intros n file_names Hl. rewrite (build_html_eq f fs fl Hl).
  fold n file_names. intros <-%Ok_inj.
  split; [apply list_set_NoDup|]. intros u.
  rewrite list_set_elem, !elem_of_app.
  assert (u ∈ (λ i, etext_dir </> i </> File.name fl) <$>
                (fmt_02d <$> etext_nums) ↔
          ∃ i, i ∈ fmt_02d <$> etext_nums ∧
               u = etext_dir </> i </> File.name fl) as Hetext.
  { rewrite list_elem_of_fmap. split; intros (i & ? & ?); by exists i. }
  assert (u ∈ (if bool_decide ("-h.html" ∉ file_names) &&
                  bool_decide ("-h.zip" ∈ file_names)
               then (λ i, files_dir n </> File.name i) <$> f :: fs else []) ↔
          (("-h.html" ∉ file_names) ∧ ("-h.zip" ∈ file_names)) ∧
          ∃ x, x ∈ f :: fs ∧ u = files_dir n </> File.name x) as Hdirect.
  { destruct (bool_decide ("-h.html" ∉ file_names) &&
              bool_decide ("-h.zip" ∈ file_names)) eqn:E.
    - apply andb_true_iff in E
        as [E1%bool_decide_eq_true E2%bool_decide_eq_true].
      rewrite list_elem_of_fmap. split.
      + intros (x & -> & Hx). split; [done|]. by exists x.
      + intros (_ & x & Hx & ->). by exists x.
    - split; [by intros ?%elem_of_nil|].
      intros ([E1 E2] & _).
      rewrite (bool_decide_eq_true_2 _ E1), (bool_decide_eq_true_2 _ E2) in E.
      discriminate E. }
  tauto.
Qed.

End Rules.

Lemma build_pdf_candidates_witness :
  ∃ urls,
    build_pdf (H := insertion_order)
      [File.mk "10023.pdf" 10023; File.mk "10023-images.pdf" 10023] = Ok urls ∧
    NoDup urls ∧ (4 ≤ length urls)%nat ∧
    (cache_dir 10023 </> "10023.pdf" ∈ urls) ∧
    (cache_dir 10023 </> "pg10023.pdf" ∈ urls).
Proof.
  destruct (build_pdf (H := insertion_order)
              [File.mk "10023.pdf" 10023; File.mk "10023-images.pdf" 10023])
    as [urls|e] eqn:Hrun; [|vm_compute in Hrun; discriminate Hrun].
  destruct (build_pdf_candidates (H := insertion_order)
              (File.mk "10023.pdf" 10023) [File.mk "10023-images.pdf" 10023]
              urls Hrun) as (Hnd & Hlen & Hiff).
  exists urls. split_and!; [done|exact Hnd|exact Hlen| |].
  - apply Hiff. left. exists (File.mk "10023.pdf" 10023).
    split_and!; [apply elem_of_cons; by left|reflexivity|reflexivity].
  - apply Hiff. right. do 2 (apply elem_of_cons; right).
    apply elem_of_cons; left. reflexivity.
Defined.

Lemma build_html_candidates_witness :
  ∃ urls,
    build_html (H := insertion_order)
      [File.mk "-h.zip" 10023; File.mk "10023-h/10023-h.htm" 10023] = Ok urls ∧
    NoDup urls ∧
    (files_dir 10023 </> "10023-h/10023-h.htm" ∈ urls) ∧
    (etext_dir </> "05" </> "10023-h/10023-h.htm" ∈ urls).
Proof.
  destruct (build_html (H := insertion_order)
              [File.mk "-h.zip" 10023; File.mk "10023-h/10023-h.htm" 10023])
    as [urls|e] eqn:Hrun; [|vm_compute in Hrun; discriminate Hrun].
  destruct (build_html_candidates (H := insertion_order)
              (File.mk "-h.zip" 10023) [File.mk "10023-h/10023-h.htm" 10023]
              (File.mk "10023-h/10023-h.htm" 10023) urls eq_refl Hrun)
    as (Hnd & Hiff).
  exists urls. split_and!; [done|exact Hnd| |].
  - apply Hiff. left. split.
    + split.
      * intros Hin. apply list_elem_of_In in Hin. vm_compute in Hin.
        destruct Hin as [Hin|[Hin|[]]]; discriminate Hin.
      * apply elem_of_cons; by left.
    + exists (File.mk "10023-h/10023-h.htm" 10023).
      split; [apply elem_of_cons; right; apply elem_of_cons; by left|].
      reflexivity.
  - apply Hiff. right. right. exists "05". split; [|reflexivity].
    rewrite list_elem_of_fmap. exists 5%N.
    split; [reflexivity|]. apply list_elem_of_In. vm_compute. tauto.
Defined.

(** ** The generators at the edges *)

Section Edges.

Context `{SetOrder}.

(** X4. Every generator raises [IndexError] on an empty list of known
    files, and on any other list it returns at least one candidate: the
    early return of an empty list is never taken. *)
Theorem generators_edges (g : list File.t → Exc (list PurePath)) :
  g ∈ [build_epub; build_pdf; build_html] →
  g [] = Raise IndexError ∧
  ∀ f fs, ∃ u us, g (f :: fs) = Ok (u :: us).
Proof.
  intros Hg. split.
  - repeat (apply elem_of_cons in Hg as [->|Hg];
            [unfold build_epub, build_pdf, build_html;
             by rewrite getitem_nil|]).
    by apply elem_of_nil in Hg.
  - intros f fs.
    apply elem_of_cons in Hg as [->|Hg];
      [apply (generators_nonempty "application/epub+zip");
       unfold mapping; rewrite !elem_of_cons; auto|].
    apply elem_of_cons in Hg as [->|Hg];
      [apply (generators_nonempty "application/pdf");
       unfold mapping; rewrite !elem_of_cons; auto|].
    apply elem_of_cons in Hg as [->|Hg];
      [apply (generators_nonempty "text/html");
       unfold mapping; rewrite !elem_of_cons; auto|].
    by apply elem_of_nil in Hg.
Qed.

End Edges.

Lemma generators_edges_witness :
  build_pdf (H := insertion_order) [] = Raise IndexError ∧
  ∀ f fs, ∃ u us, build_pdf (H := insertion_order) (f :: fs) = Ok (u :: us).
Proof.
  apply (generators_edges (H := insertion_order) build_pdf).
  apply elem_of_cons; right. apply elem_of_cons; left. reflexivity.
Defined.

(** X5. What [build] does for a builder whose identifier, when it has
    one, is the decimal form of a book id, which is what the generators
    give it. What it returns is never false: a path object, or the
    non-empty string [BASE_THREE]. It returns only for the three bases,
    and without an identifier only for [BASE_THREE]; for another base it
    ends with [url] unbound, and for [BASE_ONE] and [BASE_TWO] without an
    identifier with [AttributeError]. *)
Theorem build_truthy (base : string) (b_id : option string) :
  (∀ s, b_id = Some s → ∃ n : N, s = str n) →
  match UrlBuilder.build (UrlBuilder.mk base b_id) with
  | Ok r =>
      truthy r = true ∧
      base ∈ [UrlBuilder.BASE_ONE; UrlBuilder.BASE_TWO;
              UrlBuilder.BASE_THREE] ∧
      (b_id = None → r = PStr UrlBuilder.BASE_THREE)
  | Raise e =>
      ((base ∉ [UrlBuilder.BASE_ONE; UrlBuilder.BASE_TWO;
                UrlBuilder.BASE_THREE]) ∧
       e = UnboundLocalError "url") ∨
      (b_id = None ∧
       base ∈ [UrlBuilder.BASE_ONE; UrlBuilder.BASE_TWO] ∧
       e = AttributeError)
  end.
Proof.
  intros Hid. unfold UrlBuilder.build, UrlBuilder.get_b_id.
  cbn [UrlBuilder.base UrlBuilder.b_id].
  destruct (String.eqb_spec base UrlBuilder.BASE_ONE) as [->|N1].
  { destruct b_id as [b|]; cbn [mbind Exc_bind].
    - destruct (Hid b eq_refl) as [n ->]. rewrite int_str.
      cbn [mbind Exc_bind]. rewrite !elem_of_cons. split_and!; [done|auto|done].
    - right. rewrite !elem_of_cons. split_and!; [done|auto|done]. }
  destruct (String.eqb_spec base UrlBuilder.BASE_TWO) as [->|N2].
  { destruct b_id as [b|]; cbn [mbind Exc_bind].
    - rewrite !elem_of_cons. split_and!; [done|auto|done].
    - right. rewrite !elem_of_cons. split_and!; [done|auto|done]. }
  destruct (String.eqb_spec base UrlBuilder.BASE_THREE) as [->|N3].
  { rewrite !elem_of_cons. split_and!; [done|auto|done]. }
  left. split; [|done]. rewrite !elem_of_cons, elem_of_nil. tauto.
Qed.

Lemma build_truthy_witness :
  truthy (PPath (cache_dir 10023)) = true ∧
  UrlBuilder.BASE_TWO ∈
    [UrlBuilder.BASE_ONE; UrlBuilder.BASE_TWO; UrlBuilder.BASE_THREE] ∧
  (Some "10023" = None → PPath (cache_dir 10023) = PStr UrlBuilder.BASE_THREE).
Proof.
  refine (build_truthy UrlBuilder.BASE_TWO (Some "10023") _).
  intros s [= <-]. exists 10023%N. reflexivity.
Defined.

(** ** [sort_by_mime_type] *)

Lemma files_of_mime_app mime l1 l2 :
  files_of_mime mime (l1 ++ l2) = files_of_mime mime l1 ++ files_of_mime mime l2.
Proof. unfold files_of_mime. by rewrite List.filter_app, fmap_app. Qed.

Lemma default_as_value l : default [] (as_value l) = l.
Proof. by destruct l. Qed.

Lemma as_value_snoc l x : as_value (l ++ [x]) = Some (l ++ [x]).
Proof. by destruct l. Qed.

Lemma sort_inner_lookup (f : list (string * fmt_info))
    (acc : gmap string (list File.t)) (base : string → list File.t) :
  (∀ mime, acc !! mime = as_value (base mime)) →
  ∀ mime,
    fold_left
      (λ mime kv,
         let '(k, v) := kv in
         <[info_mime v := default [] (mime !! info_mime v)
                          ++ [File.mk k (info_id v)]]> mime)
      f acc !! mime = as_value (base mime ++ files_of_mime mime f).
Proof.
  revert acc base. induction f as [|[k v] f IH]; intros acc base Hacc mime.
  - simpl. unfold files_of_mime. simpl. by rewrite app_nil_r.
  - cbn [fold_left].
    rewrite (IH _ (λ m, base m ++ files_of_mime m [(k, v)])).
    + change ((k, v) :: f) with ([(k, v)] ++ f).
      by rewrite files_of_mime_app, app_assoc.
    + intros m. unfold files_of_mime. simpl.
      destruct (String.eqb_spec (info_mime v) m) as [<-|Hm].
      * rewrite lookup_insert_eq, Hacc, default_as_value. simpl.
        by rewrite as_value_snoc.
      * rewrite lookup_insert_ne by done. simpl. by rewrite app_nil_r.
Qed.

Lemma sort_outer_lookup (files : list (list (string * fmt_info)))
    (acc : gmap string (list File.t)) (base : string → list File.t) :
  (∀ mime, acc !! mime = as_value (base mime)) →
  ∀ mime,
    fold_left
      (λ mime f,
         fold_left
           (λ mime kv,
              let '(k, v) := kv in
              <[info_mime v := default [] (mime !! info_mime v)
                               ++ [File.mk k (info_id v)]]> mime)
           f mime)
      files acc !! mime = as_value (base mime ++ files_of_mime mime (concat files)).
Proof.
  revert acc base. induction files as [|f files IH]; intros acc base Hacc mime.
  - simpl. unfold files_of_mime. simpl. by rewrite app_nil_r.
  - cbn [fold_left concat].
    rewrite (IH _ (λ m, base m ++ files_of_mime m f)).
    + by rewrite files_of_mime_app, app_assoc.
    + by apply sort_inner_lookup.
Qed.

Lemma sort_by_mime_type_files
    (files : list (list (string * fmt_info))) (mime : string) :
  sort_by_mime_type files !! mime = as_value (files_of_mime mime (concat files)).
Proof.
  unfold sort_by_mime_type.
  rewrite (sort_outer_lookup files ∅ (λ _, [])); [done|].
  intros m. by rewrite lookup_empty.
Qed.

(** X6. [sort_by_mime_type] groups the known files by MIME type and keeps
    their order: under a MIME type stands the list of the items of that
    type, in the order of the input, and a type without an item is no key
    of the result. *)
Theorem sort_by_mime_type_lookup
    (files : list (list (string * fmt_info))) (mime : string) :
  sort_by_mime_type files !! mime =
  match files_of_mime mime (concat files) with
  | [] => None
  | l => Some l
  end.
Proof.
  unfold sort_by_mime_type.
  rewrite (sort_outer_lookup files ∅ (λ _, [])).
  - simpl. by destruct (files_of_mime mime (concat files)).
  - intros m. by rewrite lookup_empty.
Qed.

(** ** [build_urls] and [get_urls] as the code runs them *)

Section ResolverRuns.

Context `{SetOrder}.
Variable db : list string.

Lemma mapping_keys :
  mapping.*1 = ["application/epub+zip"; "application/pdf"; "text/html"].
Proof. reflexivity. Qed.

Lemma generators_nil i g : (i, g) ∈ mapping → g [] = Raise IndexError.
Proof.
  intros Hg. repeat apply elem_of_cons in Hg as [[= _ ->]|Hg];
    try (unfold build_epub, build_pdf, build_html; by rewrite getitem_nil).
  by apply elem_of_nil in Hg.
Qed.

(** The lookup of the first candidate is where the filter ends. *)
Lemma filtre_urlparse u us :
  filtre urlparse_path db (u :: us) = Raise AttributeError.
Proof. reflexivity. Qed.

Lemma build_urls_loop_runs ml (known : gmap string (list File.t)) :
  ml ⊆ mapping →
  build_urls_loop urlparse_path db ml (Known <$> known) =
    match omap (λ i, known !! i) ml.*1 with
    | [] => Ok (Known <$> known)
    | [] :: _ => Raise IndexError
    | (_ :: _) :: _ => Raise AttributeError
    end.
Proof.
  induction ml as [|[j g] ml IH]; intros Hsub; [done|].
  cbn [build_urls_loop fmap list_fmap omap list_omap fst].
  rewrite lookup_fmap.
  destruct (known !! j) as [[|f fs]|]; cbn [fmap option_fmap option_map generate].
  - rewrite (generators_nil j g) by (apply Hsub; by left). reflexivity.
  - destruct (generators_nonempty j g f fs) as (u & us & ->);
      [apply Hsub; by left|]. reflexivity.
  - apply IH. intros x Hx. apply Hsub. by right.
Qed.

(** X7. [build_urls] on a dictionary of known files, as the code runs it.
    The first of the three MIME types, in the order of [mapping], that is
    a key of the dictionary decides: with an empty list of files the
    generator raises [IndexError]; with a file the generator returns
    candidates and the lookup of the first one raises [AttributeError],
    since [urlparse] is handed a path object. Only a dictionary with none
    of the three keys comes back, and it comes back as it was. *)
Theorem build_urls_outcome (known : gmap string (list File.t)) :
  build_urls urlparse_path db (Known <$> known) =
    match omap (λ i, known !! i)
               ["application/epub+zip"; "application/pdf"; "text/html"] with
    | [] => Ok (Known <$> known)
    | [] :: _ => Raise IndexError
    | (_ :: _) :: _ => Raise AttributeError
    end.
Proof.
  unfold build_urls. rewrite <- mapping_keys.
  by apply build_urls_loop_runs.
Qed.

Variable pattern_format : string → N → Exc string.

Lemma available_formats_mimes book rows fs :
  available_formats pattern_format book rows = Ok fs →
  ∀ kv, kv ∈ concat fs → info_mime kv.2 ∈ FORMAT_MATRIX.*2.
Proof.
  revert fs. induction rows as [|x rows IH]; intros fs; cbn [available_formats].
  - intros <-%Ok_inj kv Hkv. by apply elem_of_nil in Hkv.
  - destruct (strip_encoding x) as [m|err]; [|discriminate].
    cbv beta iota delta [mbind Exc_bind].
    destruct (bool_decide (m ∈ FORMAT_MATRIX.*2)) eqn:Em; [|by apply IH].
    apply bool_decide_eq_true in Em.
    destruct (pattern_format (BookFormat.pattern x) book) as [k|err];
      [|discriminate].
    destruct (available_formats pattern_format book rows) as [tl|err];
      [|discriminate].
    intros <-%Ok_inj kv Hkv. cbn [concat app] in Hkv.
    apply elem_of_cons in Hkv as [->|Hkv]; [done|]. by apply (IH tl).
Qed.

Lemma files_of_mime_elem mime items x :
  x ∈ files_of_mime mime items →
  ∃ kv, kv ∈ items ∧ info_mime kv.2 = mime.
Proof.
  unfold files_of_mime. intros (kv & _ & Hkv)%list_elem_of_fmap.
  apply list_elem_of_In, filter_In in Hkv as [Hin Heq].
  exists kv. split; [by apply list_elem_of_In|by apply String.eqb_eq].
Qed.

(** A row of a supported format leaves an item of its MIME type. *)
Lemma available_formats_row book rows fs x mime :
  available_formats pattern_format book rows = Ok fs →
  x ∈ rows → strip_encoding x = Ok mime → mime ∈ FORMAT_MATRIX.*2 →
  files_of_mime mime (concat fs) ≠ [].
Proof.
  revert fs. induction rows as [|y rows IH]; intros fs; cbn [available_formats].
  - intros _ Hx. by apply elem_of_nil in Hx.
  - intros Hrun Hx Hs Hm.
    destruct (strip_encoding y) as [m|err] eqn:Ey; [|discriminate].
    cbv beta iota delta [mbind Exc_bind] in Hrun.
    apply elem_of_cons in Hx as [->|Hx].
    + rewrite Hs in Ey. injection Ey as <-.
      rewrite bool_decide_eq_true_2 in Hrun by done.
      destruct (pattern_format (BookFormat.pattern y) book) as [k|err];
        [|discriminate].
      destruct (available_formats pattern_format book rows) as [tl|err];
        [|discriminate].
      apply Ok_inj in Hrun as <-. cbn [concat app].
      unfold files_of_mime. cbn [List.filter snd info_mime].
      by rewrite String.eqb_refl.
    + destruct (bool_decide (m ∈ FORMAT_MATRIX.*2)); [|by apply IH].
      destruct (pattern_format (BookFormat.pattern y) book) as [k|err];
        [|discriminate].
      destruct (available_formats pattern_format book rows) as [tl|err];
        [|discriminate].
      apply Ok_inj in Hrun as <-. cbn [concat].
      rewrite files_of_mime_app. intros [_ E]%app_eq_nil.
      by apply (IH tl).
Qed.



(** X9. When [get_urls] returns, as the code runs it, the mapping is
    empty and the book has no row of a supported format: no URL is ever
    returned. *)
Theorem get_urls_returns_empty
    (formats : list BookFormat.t) (book : N) (m : gmap string entry) :
  get_urls urlparse_path db pattern_format formats book = Ok m →
  m = ∅ ∧
  ∀ x mime, x ∈ formats → BookFormat.book x = book →
            strip_encoding x = Ok mime → mime ∉ FORMAT_MATRIX.*2.
Proof.
  unfold get_urls.
  set (rows := List.filter (λ x, (BookFormat.book x =? book)%N) formats).
  destruct (available_formats pattern_format book rows) as [fs|err] eqn:Hfs;
    [|discriminate]. cbv beta iota delta [mbind Exc_bind].
  intros Hrun.
  assert (sort_by_mime_type fs = ∅) as Hempty.
  { apply map_eq. intros i. rewrite lookup_empty.
    destruct (sort_by_mime_type fs !! i) as [l|] eqn:Ei; [|done]. exfalso.
    assert (i ∈ mapping.*1) as Hi.
    { rewrite sort_by_mime_type_files in Ei. unfold as_value in Ei.
      destruct (files_of_mime i (concat fs)) as [|f0 l0] eqn:El;
        [discriminate|].
      destruct (files_of_mime_elem i (concat fs) f0) as (kv & Hkv & <-).
      { rewrite El. by left. }
      by eapply available_formats_mimes. }
    rewrite (build_urls_urlparse_raises db (sort_by_mime_type fs)) in Hrun.
    - discriminate Hrun.
    - intros j l'. apply sort_by_mime_type_nonempty.
    - exists i. split; [done|by eexists]. }
  rewrite Hempty in Hrun. split.
  - rewrite fmap_empty in Hrun. by apply Ok_inj in Hrun.
  - intros x mime Hx Hb Hs Hm.
    assert (x ∈ rows) as Hrow.
    { apply list_elem_of_In, filter_In. split; [by apply list_elem_of_In|].
      by apply N.eqb_eq. }
    pose proof (available_formats_row book rows fs x mime Hfs Hrow Hs Hm) as Hne.
    assert (sort_by_mime_type fs !! mime = None) as Hnone
      by (by rewrite Hempty).
    rewrite sort_by_mime_type_files in Hnone. unfold as_value in Hnone.
    by destruct (files_of_mime mime (concat fs)).
Qed.

Variable url_path : PurePath → Exc string.


End ResolverRuns.


Lemma get_urls_returns_empty_witness :
  (∅ : gmap string entry) = ∅ ∧
  ∀ x mime,
    x ∈ [BookFormat.mk 10023 "text/plain; charset=utf-8" "10023.txt";
         BookFormat.mk 7 "application/pdf" "7.pdf"] →
    BookFormat.book x = 10023%N →
    strip_encoding x = Ok mime → mime ∉ FORMAT_MATRIX.*2.
Proof.
  apply (get_urls_returns_empty (H := insertion_order)
           ["GUTINDEX.ALL"; "old/README"; "cache/epub/10023/pg10023.epub"]
           format_plain
           [BookFormat.mk 10023 "text/plain; charset=utf-8" "10023.txt";
            BookFormat.mk 7 "application/pdf" "7.pdf"] 10023 ∅).
  vm_compute. reflexivity.
Defined.



(** ** [setup_urls] as a whole *)

Lemma ingest_fold books start lines st :
  fold_left (ingest_line books start) lines st =
  (st.1 ++ (row_of start <$> List.filter (kept_line books) lines),
   mk_counts
     (count_dir st.2 + N.of_nat (length (List.filter is_dir_line lines)))
     (count_old st.2 + N.of_nat (length (List.filter is_old_line lines)))
     (count_added st.2 +
      N.of_nat (length (List.filter (kept_line books) lines)))
     (count_processed st.2 + N.of_nat (length lines))).
Proof.
  revert st. induction lines as [|l lines IH]; intros [tbl [d o a p]].
  - simpl. rewrite app_nil_r. f_equal. f_equal; lia.
  - cbn [fold_left]. rewrite IH. clear IH.
    unfold ingest_line, kept_line, is_old_line, is_dir_line, selected.
    cbn [List.filter].
    destruct (Str.startswith l "d"); [|destruct (py_in "/old/" l);
      [|destruct (bool_decide (books = []));
        [|destruct (existsb _ books)]]];
      unfold Url.create, row_of;
      cbn [negb andb orb fst snd length fmap list_fmap
           count_dir count_old count_added count_processed];
      apply injective_projections;
      cbn [fst snd length fmap list_fmap];
      try (by rewrite <- app_assoc); try done; f_equal; lia.
Qed.

Lemma line_class books l :
  (Nat.b2n (is_dir_line l) + Nat.b2n (is_old_line l) +
   Nat.b2n (kept_line books l) ≤ 1)%nat ∧
  (books = [] →
   (Nat.b2n (is_dir_line l) + Nat.b2n (is_old_line l) +
    Nat.b2n (kept_line books l) = 1)%nat).
Proof.
  unfold kept_line, is_old_line, selected.
  destruct (is_dir_line l), (py_in "/old/" l); cbn [negb andb Nat.b2n];
    (split; [try lia|intros ->; try done]);
    destruct (_ || _); cbn [Nat.b2n]; lia.
Qed.

Lemma line_classes books lines :
  (length (List.filter is_dir_line lines) +
   length (List.filter is_old_line lines) +
   length (List.filter (kept_line books) lines) ≤ length lines)%nat ∧
  (books = [] →
   (length (List.filter is_dir_line lines) +
    length (List.filter is_old_line lines) +
    length (List.filter (kept_line books) lines) = length lines)%nat).
Proof.
  induction lines as [|l lines [IH1 IH2]]; [done|].
  destruct (line_class books l) as [H1 H2]. cbn [List.filter].
  destruct (is_dir_line l), (is_old_line l), (kept_line books l);
    cbn [length Nat.b2n] in *; split; try lia;
    intros Hb; specialize (IH2 Hb); specialize (H2 Hb); lia.
Qed.

Lemma setup_urls_Ok force books cached rsync tbl tbl' c :
  setup_urls force books cached rsync tbl = Ok (tbl', c) →
  ∃ start,
    find_start (listing force cached rsync) None = Some start ∧
    start ≠ -1 ∧
    (tbl', c) = fold_left (ingest_line books start)
                  (listing force cached rsync) ([], mk_counts 0 0 0 0).
Proof.
  unfold setup_urls.
  destruct (find_start _ None) as [start|]; [|discriminate].
  destruct (Z.eqb_spec start (-1)); [discriminate|].
  intros <-%Ok_inj. by exists start.
Qed.

(** X10. The counters that [setup_urls] reports. Every line is counted as
    processed; [count_dir] is the number of lines that start with [d],
    [count_old] the number of the other lines with [/old/] in them, and
    [count_added] the number of rows of the table. The three never exceed
    the lines processed, and without a selection of books they add up to
    it. *)
Theorem setup_urls_counts
    (force : bool) (books : list N) (cached : option (list string))
    (rsync tbl tbl' : list string) (c : counts) :
  setup_urls force books cached rsync tbl = Ok (tbl', c) →
  let lines := listing force cached rsync in
  count_processed c = N.of_nat (length lines) ∧
  count_dir c = N.of_nat (length (List.filter is_dir_line lines)) ∧
  count_old c = N.of_nat (length (List.filter is_old_line lines)) ∧
  count_added c = N.of_nat (length tbl') ∧
  (count_dir c + count_old c + count_added c ≤ count_processed c)%N ∧
  (books = [] →
   (count_dir c + count_old c + count_added c = count_processed c)%N).
Proof.
  intros (start & _ & _ & Hfold)%setup_urls_Ok lines. fold lines in Hfold.
  rewrite ingest_fold in Hfold. injection Hfold as -> ->.
  cbn [count_dir count_old count_added count_processed fst snd app].
  rewrite length_fmap.
  destruct (line_classes books lines) as [Hle Heq].
  split_and!; try lia. intros Hb. specialize (Heq Hb). lia.
Qed.

Lemma setup_urls_counts_witness :
  let lines := listing true None sample_listing in
  let c := mk_counts 1 1 1 5 in
  count_processed c = N.of_nat (length lines) ∧
  count_dir c = N.of_nat (length (List.filter is_dir_line lines)) ∧
  count_old c = N.of_nat (length (List.filter is_old_line lines)) ∧
  count_added c = N.of_nat (length ["cache/epub/10023/pg10023.epub"]) ∧
  (count_dir c + count_old c + count_added c ≤ count_processed c)%N ∧
  ([10023%N] = [] →
   (count_dir c + count_old c + count_added c = count_processed c)%N).
Proof.
  apply (setup_urls_counts true [10023%N] None sample_listing ["stale"]
           ["cache/epub/10023/pg10023.epub"] (mk_counts 1 1 1 5)).
  vm_compute. reflexivity.
Defined.

Lemma find_start_first lines cur start :
  (∀ c, cur = Some c → c = -1) →
  find_start lines cur = Some start → start ≠ -1 →
  ∃ pre line post,
    lines = pre ++ line :: post ∧
    Forall (λ x, Str.contains x "GUTINDEX" = false) pre ∧
    Str.contains line "GUTINDEX" = true ∧
    start = Str.find line "GUTINDEX".
Proof.
  revert cur. induction lines as [|l lines IH]; intros cur Hcur.
  - cbn [find_start]. intros Hs Hne. by apply Hcur in Hs.
  - cbn [find_start].
    destruct (Z.leb_spec 0 (Str.find l "GUTINDEX")) as [Hl|Hl].
    + intros [= <-] _. exists [], l, lines.
      split_and!; [done|constructor| |done]. by apply find_contains.
    + assert (Hc : Str.contains l "GUTINDEX" = false).
      { destruct (Str.contains l "GUTINDEX") eqn:E; [|done].
        apply find_contains in E. lia. }
      intros Hs Hne.
      destruct (IH (Some (Str.find l "GUTINDEX"))) as
        (pre & line & post & -> & Hpre & Hline & ->); [|done|done|].
      { intros c [= <-]. by apply find_missing. }
      exists (l :: pre), line, post. split_and!; [done| |done|done].
      by constructor.
Qed.

(** X11. The table that [setup_urls] leaves. Whatever it held before, it
    holds one row for each line of the listing that does not start with
    [d], has no [/old/] in it and, under a selection of books, has
    [/book/] in it for a selected book. The rows stand in the order of the
    lines, a path listed twice is there twice, and each row is its line
    from the column where the first line with the marker has it, stripped. *)
Theorem setup_urls_table
    (force : bool) (books : list N) (cached : option (list string))
    (rsync tbl tbl' : list string) (c : counts) :
  setup_urls force books cached rsync tbl = Ok (tbl', c) →
  ∃ pre line post,
    listing force cached rsync = pre ++ line :: post ∧
    Forall (λ x, Str.contains x "GUTINDEX" = false) pre ∧
    Str.contains line "GUTINDEX" = true ∧
    tbl' = row_of (Str.find line "GUTINDEX") <$>
           List.filter (kept_line books) (listing force cached rsync).
Proof.
  intros (start & Hs & Hne & Hfold)%setup_urls_Ok.
  rewrite ingest_fold in Hfold. injection Hfold as -> _.
  apply find_start_first in Hs as (pre & line & post & ? & ? & ? & ->);
    [|done|done].
  by exists pre, line, post.
Qed.

Lemma setup_urls_table_witness :
  ∃ pre line post,
    listing true None sample_listing = pre ++ line :: post ∧
    Forall (λ x, Str.contains x "GUTINDEX" = false) pre ∧
    Str.contains line "GUTINDEX" = true ∧
    ["GUTINDEX.ALL"; "old/README"; "cache/epub/10023/pg10023.epub"] =
      row_of (Str.find line "GUTINDEX") <$>
      List.filter (kept_line []) (listing true None sample_listing).
Proof.
  apply (setup_urls_table true [] None sample_listing ["stale"]
           ["GUTINDEX.ALL"; "old/README"; "cache/epub/10023/pg10023.epub"]
           (mk_counts 1 1 3 5)).
  vm_compute. reflexivity.
Defined.

Lemma filter_sublist_impl {A} (p q : A → bool) (l : list A) :
  (∀ x, p x = true → q x = true) →
  sublist (List.filter p l) (List.filter q l).
Proof.
  intros Hpq. induction l as [|x l IH]; [done|]. cbn [List.filter].
  destruct (p x) eqn:Hp.
  - rewrite (Hpq x Hp). by apply sublist_skip.
  - destruct (q x); [by apply sublist_cons|done].
Qed.

Lemma kept_line_all books line :
  kept_line books line = true → kept_line [] line = true.
Proof.
  unfold kept_line, selected.
  intros [-> _]%andb_prop. done.
Qed.

(** X12. Selecting books only leaves rows out. The table that a run for
    the books [books] leaves is a sublist of the table that a run for all
    books leaves on the same listing, and when [books] is not empty, each
    of its rows comes from a line with [/b/] in it for a book [b] of the
    selection. *)
Theorem setup_urls_selection
    (force : bool) (books : list N) (cached : option (list string))
    (rsync tbl tbl0 all sel : list string) (c c0 : counts) :
  setup_urls force [] cached rsync tbl0 = Ok (all, c0) →
  setup_urls force books cached rsync tbl = Ok (sel, c) →
  sublist sel all ∧
  (books ≠ [] →
   ∀ row, row ∈ sel →
     ∃ line (b : N) start,
       line ∈ listing force cached rsync ∧ b ∈ books ∧
       py_in ("/" +:+ str b +:+ "/") line = true ∧
       row = row_of start line).
Proof.
  intros (s0 & Hs0 & _ & Hf0)%setup_urls_Ok (s & Hs & _ & Hf)%setup_urls_Ok.
  rewrite ingest_fold in Hf0, Hf.
  injection Hf0 as -> _. injection Hf as -> _.
  assert (s0 = s) as -> by congruence.
  cbn [fst app]. split.
  - apply fmap_sublist, filter_sublist_impl. apply kept_line_all.
  - intros Hb row (line & -> & Hin)%list_elem_of_fmap.
    apply list_elem_of_In, filter_In in Hin as [Hin Hk].
    unfold kept_line, selected in Hk.
    rewrite (bool_decide_eq_false_2 (books = []) Hb) in Hk.
    apply andb_prop in Hk as [_ Hk]. cbn [orb] in Hk.
    apply existsb_exists in Hk as (b & Hbin & Hbl).
    exists line, b, s. split_and!; [by apply list_elem_of_In| |done|done].
    by apply list_elem_of_In.
Qed.

Lemma setup_urls_selection_witness :
  sublist ["cache/epub/10023/pg10023.epub"]
          ["GUTINDEX.ALL"; "old/README"; "cache/epub/10023/pg10023.epub"] ∧
  ([10023%N] ≠ [] →
   ∀ row, row ∈ ["cache/epub/10023/pg10023.epub"] →
     ∃ line (b : N) start,
       line ∈ listing true None sample_listing ∧ b ∈ [10023%N] ∧
       py_in ("/" +:+ str b +:+ "/") line = true ∧
       row = row_of start line).
Proof.
  apply (setup_urls_selection true [10023%N] None sample_listing
           ["stale"] [] 
           ["GUTINDEX.ALL"; "old/README"; "cache/epub/10023/pg10023.epub"]
           ["cache/epub/10023/pg10023.epub"]
           (mk_counts 1 1 1 5) (mk_counts 1 1 3 5)).
  - vm_compute. reflexivity.
  - vm_compute. reflexivity.
Defined.

(** X13. The three ways [setup_urls] ends. It returns exactly when some
    line of the listing has the marker; it raises the [ValueError] with
    its diagnostic exactly when the listing has a line and none has the
    marker; it raises [UnboundLocalError] exactly when the listing is
    empty. It raises nothing else, and in the two error cases the table is
    not reached. *)
Theorem setup_urls_outcome
    (force : bool) (books : list N) (cached : option (list string))
    (rsync tbl : list string) :
  let lines := listing force cached rsync in
  let marked := Exists (λ x, Str.contains x "GUTINDEX" = true) lines in
  match setup_urls force books cached rsync tbl with
  | Ok _ => marked
  | Raise (ValueError msg) =>
      msg = "Unable to find relative path start in urls file" ∧
      lines ≠ [] ∧ ¬ marked
  | Raise (UnboundLocalError var) =>
      var = "start_rel_path_idx" ∧ lines = []
  | Raise _ => False
  end.
Proof.
  intros lines marked.
  destruct (setup_urls force books cached rsync tbl) as [[tbl' c]|e] eqn:E.
  - apply setup_urls_Ok in E as (start & Hs & Hne & _).
    apply find_start_first in Hs as (pre & line & post & Hl & _ & Hc & _);
      [|done|done].
    unfold marked, lines. rewrite Hl. apply Exists_app. right. by left.
  - unfold setup_urls in E. fold lines in E.
    destruct lines as [|l ls] eqn:El.
    + cbn [find_start] in E. injection E as <-. done.
    + destruct (decide marked) as [Hm|Hm].
      * apply Exists_exists in Hm as (x & Hx & Hc).
        destruct (find_start_marker (l :: ls) None) as (idx & Hidx & Hpos).
        { exists x. split; done. }
        rewrite Hidx in E.
        destruct (Z.eqb_spec idx (-1)); [lia|discriminate].
      * rewrite find_start_no_marker in E.
        -- simpl in E. injection E as <-. done.
        -- intros x Hx. destruct (Str.contains x "GUTINDEX") eqn:Ec; [|done].
           destruct Hm. apply Exists_exists. exists x.
           split; done.
Qed.

(** * Properties of [utils.py] *)

(** ** Commands *)

Lemma split_cons sep s : ∃ w ws, Str.split sep s = w :: ws.
Proof.
  destruct s as [|c s]; cbn [Str.split]; [by eexists _, _|].
  destruct (Ascii.eqb c sep); [by eexists _, _|].
  destruct (Str.split sep s); by eexists _, _.
Qed.

Lemma join_String sep c w ws :
  Str.join sep (String c w :: ws) = String c (Str.join sep (w :: ws)).
Proof. by destruct ws. Qed.

Lemma join_split sep s : Str.join (String sep "") (Str.split sep s) = s.
Proof.
  induction s as [|c s IH]; [done|]. cbn [Str.split].
  destruct (Ascii.eqb_spec c sep) as [->|Hc].
  - destruct (split_cons sep s) as (w & ws & E). rewrite E in *.
    change (Str.join (String sep "") ("" :: w :: ws))
      with (String sep (Str.join (String sep "") (w :: ws))).
    by rewrite IH.
  - destruct (split_cons sep s) as (w & ws & E). rewrite E in *.
    by rewrite join_String, IH.
Qed.

Lemma split_length sep s :
  length (Str.split sep s) = S (Utils.count_char sep s).
Proof.
  unfold Utils.count_char.
  induction s as [|c s IH]; [done|]. cbn [Str.split Utils.count_if].
  rewrite (Ascii.eqb_sym sep c).
  destruct (Ascii.eqb c sep); cbn [length]; [by rewrite IH|].
  destruct (split_cons sep s) as (w & ws & E). rewrite E in *.
  exact IH.
Qed.

Lemma split_clean sep s :
  Forall (λ a, Utils.count_char sep a = 0%nat) (Str.split sep s).
Proof.
  unfold Utils.count_char.
  induction s as [|c s IH]; cbn [Str.split]; [by repeat constructor|].
  destruct (Ascii.eqb_spec c sep) as [->|Hc]; [by constructor|].
  destruct (split_cons sep s) as (w & ws & E). rewrite E in *.
  inversion IH as [|? ? Hw Hws]; subst. constructor; [|done].
  cbn [Utils.count_if]. destruct (Ascii.eqb_spec sep c); [congruence|done].
Qed.

Lemma count_if_app f s t :
  Utils.count_if f (s +:+ t) = (Utils.count_if f s + Utils.count_if f t)%nat.
Proof.
  induction s as [|c s IH]; [done|].
  change (String c s +:+ t) with (String c (s +:+ t)).
  cbn [Utils.count_if]. rewrite IH. lia.
Qed.

Lemma split_join sep a l :
  Forall (λ a, Utils.count_char sep a = 0%nat) (a :: l) →
  Str.split sep (Str.join (String sep "") (a :: l)) = a :: l.
Proof.
  revert a. induction l as [|b l IH]; intros a Hall.
  - cbn [Str.join]. inversion Hall as [|? ? Ha _]; subst. clear Hall.
    unfold Utils.count_char in Ha.
    induction a as [|c a IHa]; [done|]. cbn [Str.split Utils.count_if] in *.
    rewrite (Ascii.eqb_sym sep c) in Ha.
    destruct (Ascii.eqb c sep); [discriminate|]. by rewrite IHa.
  - inversion Hall as [|? ? Ha Hl]; subst. specialize (IH b Hl).
    change (Str.join (String sep "") (a :: b :: l))
      with (a +:+ String sep "" +:+ Str.join (String sep "") (b :: l)).
    clear Hall. unfold Utils.count_char in Ha.
    induction a as [|c a IHa].
    + change ("" +:+ String sep "" +:+ Str.join (String sep "") (b :: l))
        with (String sep (Str.join (String sep "") (b :: l))).
      cbn [Str.split]. by rewrite Ascii.eqb_refl, IH.
    + change (String c a +:+ String sep "" +:+ Str.join (String sep "") (b :: l))
        with (String c (a +:+ String sep "" +:+
                        Str.join (String sep "") (b :: l))).
      cbn [Str.split Utils.count_if] in *.
      rewrite (Ascii.eqb_sym sep c) in Ha.
      destruct (Ascii.eqb c sep); [discriminate|]. by rewrite IHa.
Qed.

(** X14. A command given as a string is split at every space: the line
    that [exec_cmd] prints is the command itself, and the program is run
    with one more argument than the command has spaces, none of them with
    a space in it (two spaces in a row give an empty argument). *)
Theorem exec_cmd_line (run : list string → Utils.Res Z) (cmd : string)
    (stdout : list string) :
  let args := Utils.args_of (Utils.Line cmd) in
  Utils.exec_cmd run (Utils.Line cmd) stdout =
    (stdout ++ ["** " +:+ cmd], run args) ∧
  length args = S (Utils.count_char " " cmd) ∧
  Forall (λ a, Utils.count_char " " a = 0%nat) args.
Proof.
  intros args. unfold Utils.exec_cmd. fold args. unfold args, Utils.args_of.
  split_and!.
  - by rewrite (join_split " " cmd).
  - apply split_length.
  - apply split_clean.
Qed.

(** X15. The line printed for a command given as a list of arguments
    reads back as the same command exactly when the list is not empty and
    no argument has a space in it. *)
Theorem exec_cmd_args_line (args : list string) :
  Utils.args_of (Utils.Line (Str.join " " (Utils.args_of (Utils.Args args))))
    = args ↔
  args ≠ [] ∧ Forall (λ a, Utils.count_char " " a = 0%nat) args.
Proof.
  cbn [Utils.args_of]. split.
  - intros E. split.
    + intros ->. discriminate E.
    + rewrite <- E. apply split_clean.
  - intros [Hne Hall]. destruct args as [|a l]; [done|].
    by apply (split_join " "%char).
Qed.

(** ** Escaping *)

Lemma path_for_cmd_head p c s :
  Utils.path_for_cmd p = String c s → Utils.special c = false.
Proof.
  destruct p as [|a p]; [discriminate|]. cbn [Utils.path_for_cmd].
  destruct (Utils.special a) eqn:E; intros [= <- _]; [reflexivity|exact E].
Qed.

(** X16. [path_for_cmd] loses nothing: two paths with the same escaped
    form are the same path. *)
Theorem path_for_cmd_injective (p q : string) :
  Utils.path_for_cmd p = Utils.path_for_cmd q → p = q.
Proof.
  revert q. induction p as [|c p IH]; intros [|d q]; cbn [Utils.path_for_cmd].
  - done.
  - destruct (Utils.special d); discriminate.
  - destruct (Utils.special c); discriminate.
  - destruct (Utils.special c) eqn:Ec, (Utils.special d) eqn:Ed.
    + intros [= -> E]. by rewrite (IH q E).
    + intros [= <- E]. symmetry in E. apply path_for_cmd_head in E.
      congruence.
    + intros [= -> E]. apply path_for_cmd_head in E. congruence.
    + intros [= -> E]. by rewrite (IH q E).
Qed.

(** X17. The escaped form of a path. It is longer than the path by the
    number of its quotes, double quotes and spaces, it is the path itself
    exactly when there is none, and each quote, double quote and space in
    it comes right after a backslash. *)
Theorem path_for_cmd_escaped (p : string) :
  String.length (Utils.path_for_cmd p) =
    (String.length p + Utils.count_if Utils.special p)%nat ∧
  (Utils.path_for_cmd p = p ↔ Utils.count_if Utils.special p = 0%nat) ∧
  ∀ i c, String.get i (Utils.path_for_cmd p) = Some c →
         Utils.special c = true →
         ∃ j, i = S j ∧ String.get j (Utils.path_for_cmd p) = Some "\"%char.
Proof.
  assert (String.length (Utils.path_for_cmd p) =
          (String.length p + Utils.count_if Utils.special p)%nat) as Hlen.
  { induction p as [|c p IH]; [done|].
    cbn [Utils.path_for_cmd Utils.count_if].
    destruct (Utils.special c); cbn [String.length]; rewrite IH; lia. }
  split_and!; [exact Hlen| |].
  - split; [intros E; rewrite E in Hlen; lia|].
    induction p as [|c p IH]; [done|].
    cbn [Utils.path_for_cmd Utils.count_if].
    destruct (Utils.special c); [discriminate|]. intros Hp.
    rewrite IH; [done| |done].
    cbn [Utils.path_for_cmd Utils.count_if String.length] in Hlen.
    clear Hlen IH. induction p as [|d p IH]; [done|].
    cbn [Utils.path_for_cmd Utils.count_if] in *.
    destruct (Utils.special d); cbn [String.length]; [discriminate|].
    rewrite IH; [lia|done].
  - clear Hlen. induction p as [|a p IH]; intros i c; [discriminate|].
    cbn [Utils.path_for_cmd]. destruct (Utils.special a) eqn:Ea.
    + destruct i as [|[|i]]; cbn [String.get].
      * intros [= <-]. discriminate.
      * intros _ _. by exists 0%nat.
      * intros Hg Hc. destruct (IH i c Hg Hc) as (j & -> & Hj).
        by exists (S (S j)).
    + destruct i as [|i]; cbn [String.get].
      * intros [= <-]. congruence.
      * intros Hg Hc. destruct (IH i c Hg Hc) as (j & -> & Hj).
        by exists (S j).
Qed.

Lemma path_for_cmd_injective_witness : "it's" = "it's".
Proof. apply (path_for_cmd_injective "it's" "it's"). reflexivity. Defined.

Lemma count_char_path_for_cmd p :
  Utils.count_char " " (Utils.path_for_cmd p) = Utils.count_char " " p.
Proof.
  unfold Utils.count_char. induction p as [|c p IH]; [done|].
  cbn [Utils.path_for_cmd]. destruct (Utils.special c);
    cbn [Utils.count_if]; rewrite IH; done.
Qed.

(** X18. Escaping does not keep a path in one argument: put in a command
    string, the escaped form of a path is split by [exec_cmd] at each space
    of the path, into one more piece than the path has spaces. *)
Theorem path_for_cmd_split (p : string) :
  length (Utils.args_of (Utils.Line (Utils.path_for_cmd p))) =
    S (Utils.count_char " " p).
Proof.
  cbn [Utils.args_of]. by rewrite split_length, count_char_path_for_cmd.
Qed.

(** ** Sorting *)

Section Sorting.

Context {A : Type} (before : A → A → bool).
Hypothesis before_total : ∀ x y, before x y = true ∨ before y x = true.

Lemma insert_sorted_perm x l : Utils.insert_sorted before x l ≡ₚ x :: l.
Proof.
  induction l as [|y l IH]; [done|]. cbn [Utils.insert_sorted].
  destruct (before x y); [done|]. rewrite IH. apply Permutation_swap.
Qed.

Lemma insert_sorted_Sorted x l :
  Sorted (λ a b, before a b = true) l →
  Sorted (λ a b, before a b = true) (Utils.insert_sorted before x l).
Proof.
  induction l as [|y l IH]; intros Hs; cbn [Utils.insert_sorted].
  - by repeat constructor.
  - destruct (before x y) eqn:E.
    + constructor; [done|by constructor].
    + apply Sorted_inv in Hs as [Hs Hhd]. constructor; [by apply IH|].
      assert (before y x = true) by (destruct (before_total x y); congruence).
      destruct l as [|z l]; cbn [Utils.insert_sorted]; [by constructor|].
      destruct (before x z); constructor; [done|].
      by inversion Hhd.
Qed.

End Sorting.

Lemma Sorted_weaken {A} (R1 R2 : A → A → Prop) (l : list A) :
  (∀ x y, R1 x y → R2 x y) → Sorted R1 l → Sorted R2 l.
Proof.
  intros HR. induction 1 as [|x l Hs IH Hhd]; constructor; [done|].
  destruct Hhd; constructor. by apply HR.
Qed.

Lemma sorted_perm {A K} (le : K → K → bool) (key : A → K) (reverse : bool) (l : list A) :
  Utils.sorted le key reverse l ≡ₚ l.
Proof.
  unfold Utils.sorted. induction l as [|x l IH]; [done|].
  cbn [foldr]. by rewrite insert_sorted_perm, IH.
Qed.

Lemma sorted_Sorted {A K} (le : K → K → bool) (key : A → K) (reverse : bool) (l : list A) :
  (∀ a b, le a b = true ∨ le b a = true) →
  Sorted (λ x y, (if reverse then le (key y) (key x)
                  else le (key x) (key y)) = true)
         (Utils.sorted le key reverse l).
Proof.
  intros Htot. unfold Utils.sorted. induction l as [|x l IH]; [constructor|].
  cbn [foldr].
  apply (insert_sorted_Sorted
           (λ x y, if reverse then le (key y) (key x) else le (key x) (key y)));
    [|exact IH].
  intros a b. destruct reverse; apply Htot.
Qed.

(** ** Languages *)

Lemma sum_list_perm (l1 l2 : list nat) :
  l1 ≡ₚ l2 → sum_list l1 = sum_list l2.
Proof. induction 1; simpl; lia. Qed.

Lemma total_perm ps qs : ps ≡ₚ qs → Utils.total ps = Utils.total qs.
Proof. intros Hp. unfold Utils.total. apply sum_list_perm. by rewrite Hp. Qed.

Lemma count_book_spec m book :
  Utils.count_book m book =
    Utils.Ret (<[Utils.Book.language book :=
                   (default 0 (m !! Utils.Book.language book) + 1)%N]> m).
Proof.
  unfold Utils.count_book. set (l := Utils.Book.language book).
  destruct (m !! l) as [nb|] eqn:E.
  - rewrite bool_decide_eq_true_2 by by eexists. by rewrite E.
  - rewrite bool_decide_eq_false_2 by by intros [? ?].
    rewrite lookup_insert_eq. by rewrite insert_insert_eq.
Qed.

Lemma total_step (m : gmap string N) k :
  Utils.total (map_to_list (<[k := (default 0 (m !! k) + 1)%N]> m)) =
    S (Utils.total (map_to_list m)).
Proof.
  destruct (m !! k) as [n|] eqn:E; cbn [default].
  - rewrite <- insert_delete_eq.
    rewrite (total_perm _ _ (map_to_list_insert _ _ _ (lookup_delete_eq m k))).
    rewrite <- (total_perm _ _ (map_to_list_delete m k n E)).
    unfold Utils.total. rewrite !fmap_cons. simpl. lia.
  - rewrite (total_perm _ _ (map_to_list_insert m k _ E)).
    unfold Utils.total. rewrite !fmap_cons. simpl. lia.
Qed.

Lemma books_in_cons l book books :
  Utils.books_in l (book :: books) =
    ((if String.eqb (Utils.Book.language book) l then 1 else 0) +
     Utils.books_in l books)%N.
Proof.
  unfold Utils.books_in. cbn [List.filter].
  destruct (String.eqb _ l); cbn [length]; lia.
Qed.

Lemma count_books_spec books m :
  ∃ m', Utils.count_books books m = Utils.Ret m' ∧
    Utils.total (map_to_list m') =
      (Utils.total (map_to_list m) + length books)%nat ∧
    ∀ l, m' !! l =
         if (Utils.books_in l books =? 0)%N then m !! l
         else Some (default 0 (m !! l) + Utils.books_in l books)%N.
Proof.
  revert m. induction books as [|book books IH]; intros m.
  - exists m. split_and!; [done|simpl; lia|done].
  - cbn [Utils.count_books]. rewrite count_book_spec.
    cbn [mbind Utils.Res_bind].
    destruct (IH (<[Utils.Book.language book :=
                      (default 0 (m !! Utils.Book.language book) + 1)%N]> m))
      as (m' & Hrun & Htot & Hm').
    exists m'. split_and!; [done| |].
    + rewrite Htot, total_step. cbn [length]. lia.
    + intros l. rewrite Hm', books_in_cons.
      destruct (String.eqb_spec (Utils.Book.language book) l) as [->|Hne].
      * rewrite lookup_insert_eq. cbn [default].
        generalize (Utils.books_in l books). intros n.
        destruct (N.eqb_spec n 0) as [E|E];
          destruct (N.eqb_spec (1 + n) 0); try lia;
          apply (f_equal Some); unfold id; lia.
      * rewrite lookup_insert_ne by done.
        generalize (Utils.books_in l books). intros n.
        by replace (0 + n)%N with n by lia.
Qed.

Section LanguagesFacts.

Context `{Utils.DictOrder}.
Variable language_name : string → Utils.Res string.

Lemma named_spec ps r :
  Utils.named language_name ps = Utils.Ret r →
  (λ t, (t.1.2, t.2)) <$> r = ps ∧
  Forall (λ t, language_name t.1.2 = Utils.Ret t.1.1) r.
Proof.
  revert r. induction ps as [|[l nb] ps IH]; intros r; cbn [Utils.named].
  - intros [= <-]. by split.
  - destruct (language_name l) as [name|e] eqn:En; [|discriminate].
    cbn [mbind Utils.Res_bind].
    destruct (Utils.named language_name ps) as [tl|e]; [|discriminate].
    intros [= <-]. destruct (IH tl eq_refl) as [<- Hall].
    split; [done|]. by constructor.
Qed.

Lemma named_error ps e :
  Utils.named language_name ps = Utils.Err e →
  ∃ l nb, (l, nb) ∈ ps ∧ language_name l = Utils.Err e.
Proof.
  induction ps as [|[l nb] ps IH]; cbn [Utils.named]; [discriminate|].
  destruct (language_name l) as [name|e'] eqn:En.
  - cbn [mbind Utils.Res_bind].
    destruct (Utils.named language_name ps) as [tl|e'']; [discriminate|].
    intros [= <-]. destruct (IH eq_refl) as (l' & nb' & Hin & He).
    exists l', nb'. split; [by apply elem_of_cons; right|done].
  - intros [= <-]. exists l, nb. split; [by apply elem_of_cons; left|done].
Qed.

Lemma get_langs_with_count_items books :
  ∃ m ps,
    Utils.get_langs_with_count language_name books =
      Utils.named language_name ps ∧
    ps ≡ₚ map_to_list m ∧
    Sorted (λ x y, (y.2 <=? x.2)%N = true) ps ∧
    Utils.total ps = length books ∧
    ∀ l nb, (l, nb) ∈ ps ↔
            nb = Utils.books_in l books ∧ (0 < nb)%N.
Proof.
  unfold Utils.get_langs_with_count.
  destruct (count_books_spec books ∅) as (m & -> & Htot & Hm).
  cbn [mbind Utils.Res_bind].
  exists m, (Utils.sorted N.leb snd true (Utils.items m)).
  assert (Utils.sorted N.leb snd true (Utils.items m) ≡ₚ map_to_list m) as Hp.
  { by rewrite sorted_perm, Utils.items_perm. }
  split_and!; [done|done| | |].
  - apply (sorted_Sorted N.leb snd true). intros a b.
    destruct (N.leb_spec a b); [by left|right].
    apply N.leb_le. lia.
  - rewrite (total_perm _ _ Hp), Htot. rewrite map_to_list_empty. done.
  - intros l nb. rewrite Hp, elem_of_map_to_list, Hm, lookup_empty.
    cbn [default]. destruct (N.eqb_spec (Utils.books_in l books) 0) as [E|E].
    + split; [discriminate|]. intros [-> ?]. lia.
    + split; [intros [= <-]|intros [-> ?]]; [split|f_equal]; lia.
Qed.

Lemma get_langs_with_count_Ret books r :
  Utils.get_langs_with_count language_name books = Utils.Ret r →
  ∃ ps,
    (λ t, (t.1.2, t.2)) <$> r = ps ∧
    Forall (λ t, language_name t.1.2 = Utils.Ret t.1.1) r ∧
    NoDup ps.*1 ∧
    StronglySorted (λ x y, (y.2 ≤ x.2)%N) ps ∧
    Utils.total ps = length books ∧
    ∀ l nb, (l, nb) ∈ ps ↔ nb = Utils.books_in l books ∧ (0 < nb)%N.
Proof.
  destruct (get_langs_with_count_items books)
    as (m & ps & -> & Hp & Hs & Htot & Hin).
  intros [<- Hall]%named_spec. eexists. split_and!; try done.
  - rewrite Hp. apply NoDup_fst_map_to_list.
  - apply Sorted_StronglySorted.
    + intros x y z Hxy Hyz. lia.
    + eapply Sorted_weaken; [|exact Hs]. intros x y Hxy. simpl in Hxy.
      by apply N.leb_le.
Qed.

Lemma StronglySorted_fmap_inv {A B} (f : A → B) (R : relation B) l :
  StronglySorted R (f <$> l) → StronglySorted (λ x y, R (f x) (f y)) l.
Proof.
  induction l as [|x l IH]; [constructor|]. rewrite fmap_cons.
  intros [Hall Hs]%StronglySorted_cons. constructor; [by apply IH|].
  rewrite Forall_fmap in Hall. exact Hall.
Qed.

Lemma get_langs_with_count_order books r :
  Utils.get_langs_with_count language_name books = Utils.Ret r →
  StronglySorted (λ x y, (y.2 ≤ x.2)%N) r.
Proof.
  intros (ps & <- & _ & _ & Hs & _)%get_langs_with_count_Ret.
  by apply StronglySorted_fmap_inv in Hs.
Qed.

Lemma books_in_pos l books :
  (0 < Utils.books_in l books)%N →
  ∃ book, book ∈ books ∧ Utils.Book.language book = l.
Proof.
  unfold Utils.books_in. intros Hpos.
  destruct (List.filter _ books) as [|book rest] eqn:E; [simpl in Hpos; lia|].
  assert (In book (List.filter
            (λ b, (Utils.Book.language b =? l)%string) books)) as Hin
    by (rewrite E; by left).
  apply filter_In in Hin as [Hin Hb]. exists book.
  split; [by apply list_elem_of_In|by apply String.eqb_eq].
Qed.

(** X19. What [get_langs_with_count] counts. When it returns, no language
    is listed twice, the languages listed are those of the books, each
    with its name and with the number of the books in that language, and
    the counts add up to the number of the books. *)
Theorem get_langs_with_count_counts
    (books : list Utils.Book.t) (r : list (string * string * N)) :
  Utils.get_langs_with_count language_name books = Utils.Ret r →
  NoDup ((λ t, t.1.2) <$> r) ∧
  (∀ name l nb, (name, l, nb) ∈ r ↔
     language_name l = Utils.Ret name ∧
     (∃ book, book ∈ books ∧ Utils.Book.language book = l) ∧
     nb = Utils.books_in l books) ∧
  sum_list ((λ t, N.to_nat t.2) <$> r) = length books.
Proof.
  intros (ps & Hps & Hall & Hnd & _ & Htot & Hin)%get_langs_with_count_Ret.
  subst ps. split_and!.
  - by rewrite <- list_fmap_compose in Hnd.
  - intros name l nb. rewrite Forall_forall in Hall. split.
    + intros Ht.
      assert ((l, nb) ∈ (λ t : string * string * N, (t.1.2, t.2)) <$> r)
        as Hlnb by (apply list_elem_of_fmap; by exists (name, l, nb)).
      apply Hin in Hlnb as [Hnb Hpos].
      split_and!; [exact (Hall _ Ht)| |done].
      apply books_in_pos. by rewrite <- Hnb.
    + intros (Hname & (book & Hb & <-) & ->).
      assert ((Utils.Book.language book,
               Utils.books_in (Utils.Book.language book) books) ∈
              (λ t : string * string * N, (t.1.2, t.2)) <$> r) as Ht.
      { apply Hin. split; [done|]. unfold Utils.books_in.
        apply list_elem_of_In in Hb.
        assert (In book (List.filter
                  (λ b, (Utils.Book.language b =? Utils.Book.language book)%string)
                  books)) as Hf
          by (apply filter_In; split; [done|apply String.eqb_refl]).
        destruct (List.filter _ books); [done|simpl; lia]. }
      apply list_elem_of_fmap in Ht as ([[name' l'] nb'] & [= E1 E2] & Ht).
      simpl in E1, E2. subst l' nb'.
      specialize (Hall _ Ht). simpl in Hall. rewrite Hname in Hall.
      injection Hall as ->. exact Ht.
  - rewrite <- Htot. unfold Utils.total. by rewrite <- list_fmap_compose.
Qed.

(** X20. The order of the list of [get_langs_with_count]: no language
    comes before one with more books. *)
Theorem get_langs_with_count_sorted
    (books : list Utils.Book.t) (r : list (string * string * N)) :
  Utils.get_langs_with_count language_name books = Utils.Ret r →
  ∀ i j x y, (i < j)%nat → r !! i = Some x → r !! j = Some y →
             (y.2 ≤ x.2)%N.
Proof.
  intros Hs%get_langs_with_count_order i j x y Hij Hi Hj.
  rewrite <- (take_drop j r) in Hs.
  apply (StronglySorted_app_1_elem_of _ _ _ x y Hs).
  - apply (list_elem_of_lookup_2 _ i). by rewrite lookup_take_lt.
  - apply (list_elem_of_lookup_2 _ 0%nat).
    by rewrite lookup_drop, Nat.add_0_r.
Qed.

(** X21. [get_langs_with_count] raises only what [language_name] raises
    on the language of one of the books: the dictionary of the counts is
    never read at a missing key. *)
Theorem get_langs_with_count_raises
    (books : list Utils.Book.t) (e : Utils.error) :
  Utils.get_langs_with_count language_name books = Utils.Err e →
  ∃ book, book ∈ books ∧
          language_name (Utils.Book.language book) = Utils.Err e.
Proof.
  destruct (get_langs_with_count_items books)
    as (m & ps & -> & _ & _ & _ & Hin).
  intros (l & nb & Hl & He)%named_error.
  apply Hin in Hl as [-> Hpos].
  apply books_in_pos in Hpos as (book & Hb & <-). by exists book.
Qed.

(** X22. The two groups of [get_lang_groups]. The main languages are the
    first five of the list of [get_langs_with_count], or all of them when
    there are no more; the other languages are the rest of that list, put
    in the order of their names. No other language has more books than a
    main language. *)
Theorem get_lang_groups_split
    (books : list Utils.Book.t) (main other : list (string * string * N)) :
  Utils.get_lang_groups language_name books = Utils.Ret (main, other) →
  ∃ all,
    Utils.get_langs_with_count language_name books = Utils.Ret all ∧
    main = take Utils.NB_MAIN_LANGS all ∧
    other ≡ₚ drop Utils.NB_MAIN_LANGS all ∧
    Sorted (λ x y, String.leb x.1.1 y.1.1 = true) other ∧
    ∀ x y, x ∈ main → y ∈ other → (y.2 ≤ x.2)%N.
Proof.
  unfold Utils.get_lang_groups.
  destruct (Utils.get_langs_with_count language_name books) as [all|e] eqn:E;
    [|discriminate]. cbn [mbind Utils.Res_bind].
  unfold Utils.NB_MAIN_LANGS.
  assert (StronglySorted (λ x y, (y.2 ≤ x.2)%N) (take 5 all ++ drop 5 all))
    as Hs by (rewrite take_drop; by apply (get_langs_with_count_order books)).
  destruct (Nat.leb_spec (length all) 5) as [Hlen|Hlen]; intros [= <- <-];
    exists all.
  - rewrite take_ge, drop_ge by done.
    split_and!; [done|done|done|constructor|].
    intros x y _ Hy. by apply elem_of_nil in Hy.
  - split_and!; [done|done| | |].
    + apply sorted_perm.
    + apply (sorted_Sorted String.leb (λ x : string * string * N, x.1.1) false).
      apply String.leb_total.
    + intros x y Hx Hy.
      apply (StronglySorted_app_1_elem_of _ _ _ x y Hs Hx).
      by rewrite sorted_perm in Hy.
Qed.

End LanguagesFacts.

Lemma get_langs_with_count_counts_witness :
  let r := [("en", "en", 2%N); ("es", "es", 1%N); ("it", "it", 1%N);
            ("nl", "nl", 1%N); ("fr", "fr", 1%N); ("de", "de", 1%N);
            ("pt", "pt", 1%N)] in
  NoDup ((λ t : string * string * N, t.1.2) <$> r) ∧
  (∀ name l nb, (name, l, nb) ∈ r ↔
     Utils.code_name l = Utils.Ret name ∧
     (∃ book, book ∈ Utils.sample_books ∧ Utils.Book.language book = l) ∧
     nb = Utils.books_in l Utils.sample_books) ∧
  sum_list ((λ t : string * string * N, N.to_nat t.2) <$> r) =
    length Utils.sample_books.
Proof.
  intros r.
  apply (get_langs_with_count_counts (H := Utils.canonical_order)
           Utils.code_name Utils.sample_books r).
  vm_compute. reflexivity.
Defined.

Lemma get_langs_with_count_sorted_witness : (1 ≤ 2)%N.
Proof.
  refine (get_langs_with_count_sorted (H := Utils.canonical_order)
            Utils.code_name Utils.sample_books
            [("en", "en", 2%N); ("es", "es", 1%N); ("it", "it", 1%N);
             ("nl", "nl", 1%N); ("fr", "fr", 1%N); ("de", "de", 1%N);
             ("pt", "pt", 1%N)]
            _ 0%nat 4%nat ("en", "en", 2%N) ("fr", "fr", 1%N) _ _ _).
  - vm_compute. reflexivity.
  - lia.
  - reflexivity.
  - reflexivity.
Defined.

Lemma get_langs_with_count_raises_witness :
  ∃ book, book ∈ Utils.sample_books ∧
          Utils.no_portuguese (Utils.Book.language book) =
            Utils.Err Utils.KeyError.
Proof.
  apply (get_langs_with_count_raises (H := Utils.canonical_order)
           Utils.no_portuguese Utils.sample_books Utils.KeyError).
  vm_compute. reflexivity.
Defined.

Lemma get_lang_groups_split_witness :
  let main := [("en", "en", 2%N); ("es", "es", 1%N); ("it", "it", 1%N);
               ("nl", "nl", 1%N); ("fr", "fr", 1%N)] in
  let other := [("de", "de", 1%N); ("pt", "pt", 1%N)] in
  ∃ all,
    Utils.get_langs_with_count (H := Utils.canonical_order)
      Utils.code_name Utils.sample_books = Utils.Ret all ∧
    main = take Utils.NB_MAIN_LANGS all ∧
    other ≡ₚ drop Utils.NB_MAIN_LANGS all ∧
    Sorted (λ x y : string * string * N, String.leb x.1.1 y.1.1 = true)
      other ∧
    ∀ x y, x ∈ main → y ∈ other → (y.2 ≤ x.2)%N.
Proof.
  intros main other.
  apply (get_lang_groups_split (H := Utils.canonical_order)
           Utils.code_name Utils.sample_books main other).
  vm_compute. reflexivity.
Defined.

(** ** Files *)

Section FilesFacts.

Variable fs : string → option (list Byte.byte).
Variable decode : option string → list Byte.byte → Utils.Res string.
Variable md5_hexdigest : list Byte.byte → string.

(** X23. [read_file] never asks [chardet]. Provided that reading bytes as
    iso-8859-1 raises no [UnicodeDecodeError] (every byte is a character
    of that encoding), the loop over the two encodings always returns or
    raises: the result does not depend on the detector, and an encoding
    returned is utf-8, or iso-8859-1 for a file that is not valid utf-8. *)
Theorem read_file_never_guesses
    (detect detect' : list Byte.byte → option string) (fpath : string) :
  (∀ bytes, decode (Some "iso-8859-1") bytes ≠ Utils.Err Utils.UnicodeDecodeError) →
  Utils.read_file fs decode detect fpath =
    Utils.read_file fs decode detect' fpath ∧
  ∀ text encoding,
    Utils.read_file fs decode detect fpath = Utils.Ret (text, encoding) →
    ∃ bytes, fs fpath = Some bytes ∧
      ((encoding = Some "utf-8" ∧
        decode (Some "utf-8") bytes = Utils.Ret text) ∨
       (encoding = Some "iso-8859-1" ∧
        decode (Some "utf-8") bytes = Utils.Err Utils.UnicodeDecodeError ∧
        decode (Some "iso-8859-1") bytes = Utils.Ret text)).
Proof.
  intros Hlatin. unfold Utils.read_file.
  cbn [Utils.read_file_loop]. unfold Utils.read_file_as.
  destruct (fs fpath) as [bytes|]; [|split; [done|discriminate]].
  destruct (decode (Some "utf-8") bytes) as [t|e] eqn:E8.
  - split; [done|]. intros text encoding [= <- <-]. exists bytes. eauto.
  - destruct e; try (split; [done|discriminate]).
    destruct (decode (Some "iso-8859-1") bytes) as [t|e] eqn:E1.
    + split; [done|]. intros text encoding [= <- <-]. exists bytes.
      split; [done|]. right. eauto.
    + destruct e; try (split; [done|discriminate]).
      by destruct (Hlatin bytes).
Qed.

(** X24. [md5sum] never returns a digest. It asks the pair that
    [read_file] returns for its [encode] method, and a pair has none: when
    the file can be read the call raises [AttributeError], otherwise what
    [read_file] raises. *)
Theorem md5sum_never_returns
    (detect : list Byte.byte → option string) (fpath : string) :
  ∃ e, Utils.md5sum fs decode detect md5_hexdigest fpath = Utils.Err e ∧
    match Utils.read_file fs decode detect fpath with
    | Utils.Ret _ => e = Utils.AttributeError
    | Utils.Err e' => e = e'
    end.
Proof.
  unfold Utils.md5sum.
  destruct (Utils.read_file fs decode detect fpath) as [v|e];
    cbn [mbind Utils.Res_bind Utils.tuple_encode]; eauto.
Qed.

(** X25. [is_bad_cover] never answers [True]. For a file of another size
    than 19263 bytes it answers [False]; for a file of that size it goes on
    to [md5sum] and raises; for a missing file it raises [OSError]. *)
Theorem is_bad_cover_never_true
    (detect : list Byte.byte → option string) (fpath : string) :
  match fs fpath with
  | None =>
      Utils.is_bad_cover fs decode detect md5_hexdigest fpath =
        Utils.Err Utils.OSError
  | Some bytes =>
      if (N.of_nat (length bytes) =? 19263)%N then
        ∃ e, Utils.is_bad_cover fs decode detect md5_hexdigest fpath =
               Utils.Err e
      else
        Utils.is_bad_cover fs decode detect md5_hexdigest fpath =
          Utils.Ret false
  end.
Proof.
  unfold Utils.is_bad_cover, Utils.size.
  destruct (fs fpath) as [bytes|] eqn:Efs; [|done].
  cbn [mbind Utils.Res_bind].
  destruct (N.eqb_spec (N.of_nat (length bytes)) 19263) as [->|Hne].
  - rewrite bool_decide_eq_true_2 by (apply elem_of_cons; by left).
    cbn [negb]. unfold Utils.md5sum.
    destruct (Utils.read_file fs decode detect fpath) as [v|e];
      cbn [mbind Utils.Res_bind Utils.tuple_encode]; eauto.
  - rewrite bool_decide_eq_false_2; [done|].
    intros Hin. apply list_elem_of_singleton in Hin. done.
Qed.

End FilesFacts.

Lemma read_file_never_guesses_witness :
  Utils.read_file Utils.sample_fs Utils.sample_decode (λ _, None) "cover.jpg" =
    Utils.read_file Utils.sample_fs Utils.sample_decode (λ _, Some "ascii")
      "cover.jpg" ∧
  ∀ text encoding,
    Utils.read_file Utils.sample_fs Utils.sample_decode (λ _, None)
      "cover.jpg" = Utils.Ret (text, encoding) →
    ∃ bytes, Utils.sample_fs "cover.jpg" = Some bytes ∧
      ((encoding = Some "utf-8" ∧
        Utils.sample_decode (Some "utf-8") bytes = Utils.Ret text) ∨
       (encoding = Some "iso-8859-1" ∧
        Utils.sample_decode (Some "utf-8") bytes =
          Utils.Err Utils.UnicodeDecodeError ∧
        Utils.sample_decode (Some "iso-8859-1") bytes = Utils.Ret text)).
Proof.
  apply (read_file_never_guesses Utils.sample_fs Utils.sample_decode
           (λ _, None) (λ _, Some "ascii") "cover.jpg").
  intros bytes. discriminate.
Defined.
